(** * The oekaki worker ([src/index.ts])

    A shallow embedding of [handlePost] and of its compensation closure
    [rollBack], together with the collaborators the handler talks to: the
    D1 tables [Images] and [Histories], the R2 bucket and the image host
    reached through [fetch]; then of the read endpoints [handleImages],
    [handleHistories] and [handleImage], and of the router. *)

From Stdlib Require Import ZArith NArith List Lia.
From stdpp Require Import base option list gmap strings sorting.

Local Open Scope Z_scope.

(** ** JavaScript strings *)

(** A JavaScript string is a sequence of UTF-16 code units, and [.length]
    counts code units. *)
Abbreviation jsstring := (list N).

(** The code units of an ASCII literal of the source. *)
Fixpoint js (s : string) : jsstring :=
  match s with
  | EmptyString => []
  | String a s' => Ascii.N_of_ascii a :: js s'
  end.
Arguments js : simpl never.

(** The placeholder author of line 156 (three code units). *)
Definition nanashi : jsstring := [0x540D; 0x7121; 0x3057]%N.

(** ** Rows, requests and responses *)

Module Images.
(** Columns in the order of the INSERT statement of line 269. *)
Record row := {
  id : jsstring;
  author : jsstring;
  ip : option jsstring;
  description : option jsstring;
  imgurId : jsstring;
  count : Z;
  deleteHash : jsstring;
  created_at : Z
}.
End Images.

Module Histories.
(** Columns in the order of the INSERT statement of line 349. *)
Record row := {
  id : jsstring;
  author : jsstring;
  ip : option jsstring;
  image_id : jsstring;
  created_at : Z
}.
End Histories.

Module PostRequest.
(** The parsed body (lines 123-129). The type declares [payload] and
    [_bs] as required, but nothing enforces that at run time, so every
    field may be missing ([None] stands for [null] or [undefined]). *)
Record t := {
  id : option jsstring;
  payload : option (list Z);
  description : option jsstring;
  author : option jsstring;
  _bs : option jsstring
}.
End PostRequest.

(** What the handler reads of the incoming request: the method, the
    [CF-Connecting-IP] header and the parsed JSON body ([None] for the
    JSON value [null]). *)
Record Request := {
  method : string;
  cf_connecting_ip : option jsstring;
  body : option PostRequest.t
}.

Definition cors : list (string * string) :=
  [ ("Access-Control-Allow-Credentials", "true");
    ("Access-Control-Allow-Methods", "GET, POST, PUT, DELETE, OPTIONS");
    ("Access-Control-Allow-Origin", "*");
    ("Access-Control-Allow-Headers", "Content-Type") ]%string.

Record Response := {
  status : Z;
  success : bool;
  reason : option string;
  result : option jsstring;
  headers : list (string * string)
}.

Definition failure (code : Z) (why : string) (hs : list (string * string)) : Response :=
  {| status := code; success := false; reason := Some why; result := None;
     headers := hs |}.

Definition succeeded (imageId : jsstring) : Response :=
  {| status := 200; success := true; reason := None; result := Some imageId;
     headers := cors |}.

Definition method_not_allowed : Response := failure 405 "method not allowed" cors.
Definition bad_request : Response := failure 400 "bad request" cors.
Definition invalid_image_id : Response := failure 400 "invalid image id" cors.
(** Lines 208-211: the only response built without the CORS headers. *)
Definition already_completed : Response :=
  failure 423 "this image is already completed" [].
Definition internal_server_error : Response :=
  failure 500 "internal server error" cors.
(** Lines 243-254: status 500 paired with the reason of the 400 responses. *)
Definition upload_refused : Response := failure 500 "bad request" cors.

(** ** The world the handler acts on *)

(** Every call that leaves the worker, in the order it is made. *)
Inductive Call :=
| SelectImage (id : jsstring)
| InsertImage (r : Images.row)
| UpdateImage (imgurId : jsstring) (created_at count : Z) (id : jsstring)
| InsertHistory (r : Histories.row)
| DeleteImage (id : jsstring)
| DeleteHistories (image_id : jsstring)
| ImgurUpload (image : jsstring)
| ImgurDelete (deleteHash : jsstring)
| BucketPut (key : jsstring) (bytes : list Z)
| SelectRecentImages
| SelectHistories (image_id : jsstring)
| BucketGet (key : jsstring).

(** The two tables are lists of rows: the schema is not part of the
    sources, so no key constraint is assumed. *)
Record World := {
  images : list Images.row;
  histories : list Histories.row;
  bucket : gmap jsstring (list Z);
  calls : list Call
}.

Definition log (c : Call) (w : World) : World :=
  {| images := images w; histories := histories w; bucket := bucket w;
     calls := calls w ++ [c] |}.

Definition set_images (l : list Images.row) (w : World) : World :=
  {| images := l; histories := histories w; bucket := bucket w;
     calls := calls w |}.

Definition set_histories (l : list Histories.row) (w : World) : World :=
  {| images := images w; histories := l; bucket := bucket w;
     calls := calls w |}.

Definition set_bucket (b : gmap jsstring (list Z)) (w : World) : World :=
  {| images := images w; histories := histories w; bucket := b;
     calls := calls w |}.

(** What the image host answers to the upload: [ok], and the [data] member
    of the JSON body when there is one. *)
Record ImgurData := { imgur_id : jsstring; deletehash : jsstring }.
Record FetchResponse := { ok : bool; data : option ImgurData }.

Inductive PutOutcome := PutStored | PutNull | PutThrows.

(** How the collaborators behave during one request, and the values drawn
    from [crypto.randomUUID()] and [new Date().getTime()]. A statement
    whose result carries a truthy [error] leaves its table as it was. *)
Record Env := {
  select_error : bool;
  upload_response : FetchResponse;
  insert_image_error : bool;
  delete_response_ok : bool;
  update_error : bool;
  insert_history_error : bool;
  rollback_images_error : bool;
  rollback_histories_error : bool;
  put_outcome : PutOutcome;
  image_uuid : jsstring;
  history_uuid : jsstring;
  image_time : Z;
  history_time : Z
}.

(** ** Handlers: state passing with thrown faults *)

Inductive Fault := TypeError | R2Error.

Inductive Completion (A : Type) :=
| Returned (a : A)
| Thrown (e : Fault).
Arguments Returned {A} a.
Arguments Thrown {A} e.

Definition Handler (A : Type) : Type := World -> Completion A * World.

#[global] Instance Handler_ret : MRet Handler :=
  fun A a w => (Returned a, w).

#[global] Instance Handler_bind : MBind Handler :=
  fun A B k m w =>
    match m w with
    | (Returned a, w') => k a w'
    | (Thrown e, w') => (Thrown e, w')
    end.

Definition throw {A : Type} (e : Fault) : Handler A := fun w => (Thrown e, w).

Definition lift {A : Type} (c : Completion A) : Handler A := fun w => (c, w).

(** [try { m } catch (e) { h e }] *)
Definition try_catch {A : Type} (m : Handler A) (h : Fault -> Handler A) : Handler A :=
  fun w =>
    match m w with
    | (Returned a, w') => (Returned a, w')
    | (Thrown e, w') => h e w'
    end.

(** ** The collaborators *)

(** What [first()] resolves to (lines 179-182): the first matching row,
    [null] when no row matches (the value line 469 tests a lookup result
    against), or an object whose [error] member is truthy. *)
Inductive FirstResult :=
| FirstRow (r : Images.row)
| FirstNull
| FirstError.

(** [existingImage.error]: reading a member of [null] throws. *)
Definition error_of (v : FirstResult) : Completion bool :=
  match v with
  | FirstRow _ => Returned false
  | FirstNull => Thrown TypeError
  | FirstError => Returned true
  end.

Definition has_id (i : jsstring) (r : Images.row) : bool :=
  bool_decide (Images.id r = i).

(** [SELECT * FROM Images WHERE id = ?] followed by [first()]. *)
Definition select_image (env : Env) (i : jsstring) : Handler FirstResult :=
  fun w =>
    (Returned
       (if select_error env then FirstError
        else match find (has_id i) (images w) with
             | Some r => FirstRow r
             | None => FirstNull
             end),
     log (SelectImage i) w).

(** [INSERT INTO Images ... VALUES ...]; the result is the [error] member. *)
Definition insert_image (env : Env) (r : Images.row) : Handler bool :=
  fun w =>
    if insert_image_error env then (Returned true, log (InsertImage r) w)
    else (Returned false, set_images (images w ++ [r]) (log (InsertImage r) w)).

Definition revise (imgurId : jsstring) (created_at count : Z) (r : Images.row)
  : Images.row :=
  {| Images.id := Images.id r;
     Images.author := Images.author r;
     Images.ip := Images.ip r;
     Images.description := Images.description r;
     Images.imgurId := imgurId;
     Images.count := count;
     Images.deleteHash := Images.deleteHash r;
     Images.created_at := created_at |}.

Definition revise_where (i imgurId : jsstring) (created_at count : Z)
    (rows : list Images.row) : list Images.row :=
  map (fun r => if has_id i r then revise imgurId created_at count r else r) rows.

(** [UPDATE Images SET imgurId = ?, created_at = ?, count = ? WHERE id = ?] *)
Definition update_image (env : Env) (imgurId : jsstring) (created_at count : Z)
    (i : jsstring) : Handler bool :=
  fun w =>
    let w' := log (UpdateImage imgurId created_at count i) w in
    if update_error env then (Returned true, w')
    else (Returned false, set_images (revise_where i imgurId created_at count (images w)) w').

(** [INSERT INTO Histories ... VALUES ...] *)
Definition insert_history (env : Env) (h : Histories.row) : Handler bool :=
  fun w =>
    if insert_history_error env then (Returned true, log (InsertHistory h) w)
    else
      (Returned false,
       set_histories (histories w ++ [h]) (log (InsertHistory h) w)).

(** [DELETE From Images WHERE id = ?] *)
Definition delete_image (env : Env) (i : jsstring) : Handler unit :=
  fun w =>
    let w' := log (DeleteImage i) w in
    if rollback_images_error env then (Returned tt, w')
    else
      (Returned tt,
       set_images (filter (fun r => Images.id r <> i) (images w)) w').

(** [DELETE From Histories WHERE image_id = ?] *)
Definition delete_histories (env : Env) (i : jsstring) : Handler unit :=
  fun w =>
    let w' := log (DeleteHistories i) w in
    if rollback_histories_error env then (Returned tt, w')
    else
      (Returned tt,
       set_histories (filter (fun h => Histories.image_id h <> i) (histories w)) w').

(** [fetch('https://api.imgur.com/3/image', { method: 'POST', ... })] *)
Definition imgur_upload (env : Env) (image : jsstring) : Handler FetchResponse :=
  fun w => (Returned (upload_response env), log (ImgurUpload image) w).

(** [fetch(`https://api.imgur.com/3/image/${oldDeleteHash}`, { method: 'DELETE' })];
    the result is the [ok] member of the response. *)
Definition imgur_delete (env : Env) (hash : jsstring) : Handler bool :=
  fun w => (Returned (delete_response_ok env), log (ImgurDelete hash) w).

(** [BUCKET.put(key, bytes, ...)]: the stored object, [null], or a fault. *)
Definition bucket_put (env : Env) (key : jsstring) (bytes : list Z)
  : Handler (option unit) :=
  fun w =>
    let w' := log (BucketPut key bytes) w in
    match put_outcome env with
    | PutStored => (Returned (Some tt), set_bucket (<[key := bytes]> (bucket w)) w')
    | PutNull => (Returned None, w')
    | PutThrows => (Thrown R2Error, w')
    end.

(** ** The handler *)

(** [s.length > 20] *)
Definition too_long (s : jsstring) : bool := bool_decide (20 < length s)%nat.

(** [payload[i] !== b]: an index past the end reads [undefined], which
    differs from every number. *)
Definition differs (payload : list Z) (i : nat) (b : Z) : bool :=
  negb (bool_decide (payload !! i = Some b)).

(** The four comparisons of lines 137-140. *)
Definition magic_mismatch (payload : list Z) : bool :=
  differs payload 0 0x23 || differs payload 1 0x52
  || differs payload 2 0xff || differs payload 3 0xac.

Definition strip_prefix (p s : jsstring) : option jsstring :=
  if bool_decide (take (length p) s = p) then Some (drop (length p) s) else None.

(** [s.replace(/^data:image\/(png|jpeg);base64,/, "")] *)
Definition strip_data_uri (s : jsstring) : jsstring :=
  match strip_prefix (js "data:image/png;base64,") s with
  | Some rest => rest
  | None =>
    match strip_prefix (js "data:image/jpeg;base64,") s with
    | Some rest => rest
    | None => s
    end
  end.

(** [new Uint8Array(payload.slice(4))]: each element is reduced modulo 256. *)
Definition blob_of (payload : list Z) : list Z :=
  map (fun n => n mod 256) (drop 4 payload).

(** The locals set by lines 173-229. *)
Inductive Target :=
| NewImage
| ExistingImage (imageId oldDeleteHash : jsstring) (oldCount : Z).

Definition alreadyExists (t : Target) : bool :=
  match t with
  | NewImage => false
  | ExistingImage _ _ _ => true
  end.

(** Lines 335-345. *)
Definition rollBack (env : Env) (imageId : jsstring) : Handler unit :=
  _ ← delete_image env imageId;
  delete_histories env imageId.

(** Lines 172-229: either a response that ends the request, or the target. *)
Definition resolve_target (env : Env) (id : option jsstring)
  : Handler (Response + Target) :=
  match id with
  | None => mret (inr NewImage)
  | Some imageId =>
    existingImage ← select_image env imageId;
    error ← lift (error_of existingImage);
    if error : bool then mret (inl internal_server_error)
    else
      match existingImage with
      | FirstRow r =>
        let oldDeleteHash := Images.deleteHash r in
        let oldCount := Images.count r in
        if bool_decide (10 <= oldCount) then mret (inl already_completed)
        else mret (inr (ExistingImage imageId oldDeleteHash oldCount))
      | _ => mret (inl invalid_image_id)
      end
  end.

(** What lines 131-170 leave in scope once every check has passed. *)
Record Checked := {
  checked_json : PostRequest.t;
  checked_bs : jsstring;
  checked_payload : list Z;
  checked_author : jsstring
}.

(** Lines 105-170: the checks made before any collaborator is called. The
    condition of lines 134-140 is evaluated left to right, and reading
    [json.payload[0]] throws when [payload] is missing. *)
Definition validate (request : Request) : Completion (Response + Checked) :=
  if negb (bool_decide (method request = "POST"%string))
  then Returned (inl method_not_allowed)
  else
    match body request with
    | None => Returned (inl bad_request)
    | Some json =>
      match PostRequest._bs json with
      | None => Returned (inl bad_request)
      | Some _bs =>
        if from_option too_long false (PostRequest.description json)
        then Returned (inl bad_request)
        else
          match PostRequest.payload json with
          | None => Thrown TypeError
          | Some payload =>
            if magic_mismatch payload then Returned (inl bad_request)
            else
              let author := default nanashi (PostRequest.author json) in
              if too_long author then Returned (inl bad_request)
              else
                Returned (inr {| checked_json := json; checked_bs := _bs;
                                 checked_payload := payload;
                                 checked_author := author |})
          end
      end
    end.

(** The values bound by line 270. *)
Definition new_image_row (request : Request) (env : Env) (input : Checked)
    (uploaded : ImgurData) : Images.row :=
  {| Images.id := image_uuid env;
     Images.author := checked_author input;
     Images.ip := cf_connecting_ip request;
     Images.description := PostRequest.description (checked_json input);
     Images.imgurId := imgur_id uploaded;
     Images.count := 1;
     Images.deleteHash := deletehash uploaded;
     Images.created_at := image_time env |}.

(** The values bound by line 350. *)
Definition history_row (request : Request) (env : Env) (input : Checked)
    (imageId : jsstring) : Histories.row :=
  {| Histories.id := history_uuid env;
     Histories.author := checked_author input;
     Histories.ip := cf_connecting_ip request;
     Histories.image_id := imageId;
     Histories.created_at := history_time env |}.

(** Lines 264-333: either a response that ends the request, or [imageId]. *)
Definition persist_image (request : Request) (env : Env) (input : Checked)
    (target : Target) (uploaded : ImgurData) : Handler (Response + jsstring) :=
  match target with
  | NewImage =>
    let imageId := image_uuid env in
    error ← insert_image env (new_image_row request env input uploaded);
    if error : bool then mret (inl internal_server_error) else mret (inr imageId)
  | ExistingImage imageId oldDeleteHash oldCount =>
    deleted ← imgur_delete env oldDeleteHash;
    if negb deleted then mret (inl internal_server_error)
    else
      error ← update_image env (imgur_id uploaded) (image_time env)
                (oldCount + 1) imageId;
      if error : bool then mret (inl internal_server_error) else mret (inr imageId)
  end.

(** Lines 347-427. *)
Definition record_and_store (request : Request) (env : Env) (input : Checked)
    (target : Target) (imageId : jsstring) : Handler Response :=
  error ← insert_history env (history_row request env input imageId);
  if error : bool then
    _ ← (if negb (alreadyExists target) then rollBack env imageId else mret tt);
    mret internal_server_error
  else
    early ← try_catch
      (r2Object ← bucket_put env (imageId ++ js ".bin")
                    (blob_of (checked_payload input));
       match r2Object with
       | None => _ ← rollBack env imageId; mret (Some internal_server_error)
       | Some _ => mret None
       end)
      (fun _ => _ ← rollBack env imageId; mret (Some internal_server_error));
    match early with
    | Some response => mret response
    | None => mret (succeeded imageId)
    end.

(** Lines 231-428: everything after the target is known. *)
Definition submit (request : Request) (env : Env) (input : Checked)
    (target : Target) : Handler Response :=
  imgurResponse ← imgur_upload env (strip_data_uri (checked_bs input));
  if negb (ok imgurResponse) then mret upload_refused
  else
    match data imgurResponse with
    | None => throw TypeError
    | Some uploaded =>
      stored ← persist_image request env input target uploaded;
      match stored with
      | inl response => mret response
      | inr imageId => record_and_store request env input target imageId
      end
    end.

(** Lines 104-428. *)
Definition handlePost (request : Request) (env : Env) : Handler Response :=
  checked ← lift (validate request);
  match checked with
  | inl response => mret response
  | inr input =>
    resolved ← resolve_target env (PostRequest.id (checked_json input));
    match resolved with
    | inl response => mret response
    | inr target => submit request env input target
    end
  end.

(** ** Runs and observations *)

(** A sequence of requests handled one after the other; a request that
    ends in a fault leaves the world as it was when the fault was thrown. *)
Definition run (steps : list (Request * Env)) (w : World) : World :=
  fold_left (fun w step => snd (handlePost (fst step) (snd step) w)) steps w.

(** The three stores are as they were. *)
Definition same_stores (w w' : World) : Prop :=
  images w' = images w /\ histories w' = histories w /\ bucket w' = bucket w.

(** The invariant of the [count] column. *)
Definition in_range (rows : list Images.row) : Prop :=
  Forall (fun r => 1 <= Images.count r <= 10) rows.

Definition count_in_range (w : World) : Prop := in_range (images w).

(** What the invariant gives about the locals of an existing target. *)
Definition target_in_range (t : Target) : Prop :=
  match t with
  | NewImage => True
  | ExistingImage _ _ oldCount => 1 <= oldCount < 10
  end.

Definition empty_world : World :=
  {| images := []; histories := []; bucket := ∅; calls := [] |}.

(** The four bytes lines 137-140 compare against. *)
Definition magic : list Z := [0x23; 0x52; 0xff; 0xac].

(** The artifact id a target stands for once line 266 has run. *)
Definition target_id (env : Env) (t : Target) : jsstring :=
  match t with
  | NewImage => image_uuid env
  | ExistingImage i _ _ => i
  end.

(** The artifact a request is about: the id it carries, or the one
    [crypto.randomUUID()] yields for it. *)
Definition artifact_of (request : Request) (env : Env) : jsstring :=
  match body request with
  | Some json => default (image_uuid env) (PostRequest.id json)
  | None => image_uuid env
  end.

(** ** The read endpoints and the router *)

(** The JSON values the read endpoints answer with. An object lists its
    members in insertion order. *)
#[warnings="-register-all"] Inductive Json :=
| JNull
| JBool (b : bool)
| JNum (n : Z)
| JStr (s : jsstring)
| JArr (items : list Json)
| JObj (members : list (string * Json)).

Abbreviation object := (list (string * Json)).

(** [o[k]] *)
Definition obj_get (k : string) (o : object) : option Json :=
  snd <$> find (fun kv => bool_decide (fst kv = k)) o.

(** [o[k] = v]: an existing member keeps its place. *)
Fixpoint obj_set (k : string) (v : Json) (o : object) : object :=
  match o with
  | [] => [(k, v)]
  | (k', v') :: o' =>
    if bool_decide (k' = k) then (k, v) :: o' else (k', v') :: obj_set k v o'
  end.

(** [delete o[k]] *)
Definition obj_delete (k : string) (o : object) : object :=
  filter (fun kv => fst kv <> k) o.

(** [{ ...dst, ...src }] *)
Definition obj_spread (src dst : object) : object :=
  fold_left (fun acc kv => obj_set (fst kv) (snd kv) acc) src dst.

Definition json_of_text (o : option jsstring) : Json :=
  match o with
  | Some s => JStr s
  | None => JNull
  end.

(** A row of [Images] as [SELECT *] returns it. *)
Definition image_object (r : Images.row) : object :=
  [ ("id", JStr (Images.id r));
    ("author", JStr (Images.author r));
    ("ip", json_of_text (Images.ip r));
    ("description", json_of_text (Images.description r));
    ("imgurId", JStr (Images.imgurId r));
    ("count", JNum (Images.count r));
    ("deleteHash", JStr (Images.deleteHash r));
    ("created_at", JNum (Images.created_at r)) ]%string.

(** A row of [Histories] as [SELECT *] returns it. *)
Definition history_object (h : Histories.row) : object :=
  [ ("id", JStr (Histories.id h));
    ("author", JStr (Histories.author h));
    ("ip", json_of_text (Histories.ip h));
    ("image_id", JStr (Histories.image_id h));
    ("created_at", JNum (Histories.created_at h)) ]%string.

(** [Response.json(body, { status, headers })] *)
Record Reply := {
  reply_status : Z;
  reply_body : Json;
  reply_headers : list (string * string)
}.

Definition refusal (code : Z) (why : string) (hs : list (string * string)) : Reply :=
  {| reply_status := code;
     reply_body := JObj [("success", JBool false); ("reason", JStr (js why))]%string;
     reply_headers := hs |}.

Definition answer (member : string) (value : Json) : Reply :=
  {| reply_status := 200;
     reply_body := JObj [("success"%string, JBool true); (member, value)];
     reply_headers := cors |}.

(** What the URL of a request contributes: the path and the [image_id]
    search parameter ([None] when [searchParams.has] is false). *)
Record Incoming := {
  pathname : string;
  search_image_id : option jsstring;
  request : Request
}.

(** [ORDER BY created_at desc] and [asc]. The order among rows of equal
    [created_at] is left open by SQL; here it is the one the sort gives. *)
Definition newer_first (a b : Images.row) : Prop :=
  Images.created_at b <= Images.created_at a.

Definition older_first (a b : Histories.row) : Prop :=
  Histories.created_at a <= Histories.created_at b.

#[global] Instance newer_first_dec : RelDecision newer_first :=
  fun a b => decide (Images.created_at b <= Images.created_at a).

#[global] Instance older_first_dec : RelDecision older_first :=
  fun a b => decide (Histories.created_at a <= Histories.created_at b).

(** [SELECT * FROM Images ORDER BY created_at desc LIMIT 50] *)
Definition recent_images (w : World) : list Images.row :=
  take 50 (merge_sort newer_first (images w)).

(** [SELECT * FROM Histories WHERE image_id = ? ORDER BY created_at asc] *)
Definition histories_of (i : jsstring) (w : World) : list Histories.row :=
  merge_sort older_first (filter (fun h => Histories.image_id h = i) (histories w)).

(** [SELECT * FROM Images WHERE id = ?] followed by [first()], as in
    [select_image]. *)
Definition first_image (error : bool) (i : jsstring) (w : World) : FirstResult :=
  if error then FirstError
  else match find (has_id i) (images w) with
       | Some r => FirstRow r
       | None => FirstNull
       end.

(** Lines 1-34. [error] tells whether the result of [all()] carries a
    truthy [error]. *)
Definition handleImages (error : bool) (w : World) : Completion Reply :=
  if error then Returned (refusal 500 "internal server error" cors)
  else Returned (answer "images" (JArr (map (fun r => JObj (image_object r))
                                           (recent_images w)))).

(** Lines 36-102. *)
Definition handleHistories (incoming : Incoming) (error : bool) (w : World)
  : Completion Reply :=
  match search_image_id incoming with
  | None => Returned (refusal 400 "required params are not set" cors)
  | Some image_id =>
    if error then Returned (refusal 500 "internal server error" cors)
    else
      let results := histories_of image_id w in
      if bool_decide (length results = 0%nat)
      then Returned (refusal 404 "no such image_id" cors)
      else Returned (answer "result"
                       (JArr (map (fun h => JObj (history_object h)) results)))
  end.

(** Lines 430-511. When the bucket has no object, [object] becomes the
    empty array, and calling its missing [arrayBuffer] member throws. *)
Definition handleImage (incoming : Incoming) (error : bool) (w : World)
  : Completion Reply :=
  match search_image_id incoming with
  | None => Returned (refusal 400 "required params are not set" cors)
  | Some image_id =>
    let image := first_image error image_id w in
    match error_of image with
    | Thrown e => Thrown e
    | Returned true => Returned (refusal 500 "internal server error" cors)
    | Returned false =>
      match image with
      | FirstRow r =>
        let object := bucket w !! (image_id ++ js ".bin") in
        let type :=
          match object with Some _ => "bin"%string | None => "jpg"%string end in
        let image := obj_delete "deleteHash" (image_object r) in
        match object with
        | None => Thrown TypeError
        | Some bytes =>
          Returned
            (answer "result"
               (JObj (obj_set "type" (JStr (js type))
                        (obj_spread image [("payload"%string, JArr (map JNum bytes))]))))
        end
      | _ => Returned (refusal 404 "no such image_id" cors)
      end
    end
  end.

(** The body [handlePost] hands to [Response.json]. *)
Definition reply_of (response : Response) : Reply :=
  {| reply_status := status response;
     reply_body :=
       JObj (("success"%string, JBool (success response))
             :: match reason response with
                | Some why => [("reason"%string, JStr (js why))]
                | None => []
                end
             ++ match result response with
                | Some imageId => [("result"%string, JStr imageId)]
                | None => []
                end);
     reply_headers := headers response |}.

(** The calls [handleImages] makes: the query of lines 3-5. *)
Definition handleImages_calls : list Call := [SelectRecentImages].

(** The calls [handleHistories] makes: none without the parameter, else
    the query of lines 55-58. *)
Definition handleHistories_calls (incoming : Incoming) : list Call :=
  match search_image_id incoming with
  | None => []
  | Some image_id => [SelectHistories image_id]
  end.

(** The calls [handleImage] makes: none without the parameter, else the
    lookup of lines 449-452 and, when it yields a row, the [BUCKET.get]
    of line 488. *)
Definition handleImage_calls (incoming : Incoming) (error : bool) (w : World)
  : list Call :=
  match search_image_id incoming with
  | None => []
  | Some image_id =>
    SelectImage image_id
    :: match first_image error image_id w with
       | FirstRow _ => [BucketGet (image_id ++ js ".bin")]
       | _ => []
       end
  end.

(** The calls that write nothing. *)
Definition is_read (c : Call) : Prop :=
  match c with
  | SelectImage _ | SelectRecentImages | SelectHistories _ | BucketGet _ => True
  | _ => False
  end.

(** A handler that only reads the world: it answers [f w] and leaves the
    calls [made w] in the log. *)
Definition reading {A : Type} (made : World -> list Call)
    (f : World -> Completion A) : Handler A :=
  fun w => (f w, fold_left (fun w' c => log c w') (made w) w).

(** Lines 513-545. The read endpoints make one query each, whose failure
    is [select_error env]. *)
Definition fetch (incoming : Incoming) (env : Env) : Handler Reply :=
  if bool_decide (method (request incoming) = "OPTIONS"%string)
  then mret {| reply_status := 204; reply_body := JNull; reply_headers := cors |}
  else if bool_decide (pathname incoming = "/api/oekaki/images"%string)
  then reading (fun _ => handleImages_calls) (handleImages (select_error env))
  else if bool_decide (pathname incoming = "/api/oekaki/histories"%string)
  then reading (fun _ => handleHistories_calls incoming)
         (handleHistories incoming (select_error env))
  else if bool_decide (pathname incoming = "/api/oekaki/post"%string)
  then response ← handlePost (request incoming) env; mret (reply_of response)
  else if bool_decide (pathname incoming = "/api/oekaki/image"%string)
  then reading (handleImage_calls incoming (select_error env))
         (handleImage incoming (select_error env))
  else mret (refusal 403 "access denied" []).

(** ** Sample data *)

Definition sample_body (id : option jsstring) (payload : option (list Z))
    (_bs : option jsstring) : PostRequest.t :=
  {| PostRequest.id := id;
     PostRequest.payload := payload;
     PostRequest.description := Some (js "cat");
     PostRequest.author := None;
     PostRequest._bs := _bs |}.

Definition sample_post (json : PostRequest.t) : Request :=
  {| method := "POST"; cf_connecting_ip := Some (js "192.0.2.1");
     body := Some json |}.

Definition sample_payload : list Z := magic ++ [7; 8; 9].
Definition sample_bs : jsstring := js "data:image/png;base64,AAAA".

(** A well-formed submission, new ([None]) or revising artifact [id]. *)
Definition sample_submission (id : option jsstring) : Request :=
  sample_post (sample_body id (Some sample_payload) (Some sample_bs)).

(** What [validate] leaves in scope for [sample_submission id]. *)
Definition sample_checked (id : option jsstring) : Checked :=
  {| checked_json := sample_body id (Some sample_payload) (Some sample_bs);
     checked_bs := sample_bs;
     checked_payload := sample_payload;
     checked_author := nanashi |}.

Definition sample_upload : ImgurData :=
  {| imgur_id := js "i1"; deletehash := js "d1" |}.

(** Collaborators that cooperate except where the arguments say otherwise. *)
Definition sample_env (upload : FetchResponse) (history_error : bool)
    (put : PutOutcome) : Env :=
  {| select_error := false;
     upload_response := upload;
     insert_image_error := false;
     delete_response_ok := true;
     update_error := false;
     insert_history_error := history_error;
     rollback_images_error := false;
     rollback_histories_error := false;
     put_outcome := put;
     image_uuid := js "u1";
     history_uuid := js "h1";
     image_time := 100;
     history_time := 101 |}.

Definition cooperative : Env :=
  sample_env {| ok := true; data := Some sample_upload |} false PutStored.

Definition stored_image (count : Z) : Images.row :=
  {| Images.id := js "a";
     Images.author := js "ann";
     Images.ip := None;
     Images.description := Some (js "tree");
     Images.imgurId := js "i0";
     Images.count := count;
     Images.deleteHash := js "d0";
     Images.created_at := 10 |}.

Definition other_image : Images.row :=
  {| Images.id := js "b";
     Images.author := js "bob";
     Images.ip := None;
     Images.description := None;
     Images.imgurId := js "j0";
     Images.count := 2;
     Images.deleteHash := js "e0";
     Images.created_at := 20 |}.

Definition stored_history : Histories.row :=
  {| Histories.id := js "h0";
     Histories.author := js "ann";
     Histories.ip := None;
     Histories.image_id := js "a";
     Histories.created_at := 10 |}.

(** Artifact [a] with [count] revisions and one history row, next to [b]. *)
Definition sample_world (count : Z) : World :=
  {| images := [stored_image count; other_image];
     histories := [stored_history];
     bucket := ∅;
     calls := [] |}.

(** * Properties *)

(** ** Validation *)

Lemma differs_false (payload : list Z) (i : nat) (b : Z) :
  differs payload i b = false <-> payload !! i = Some b.
Proof.
  unfold differs. rewrite negb_false_iff, bool_decide_eq_true. reflexivity.
Qed.

Lemma magic_mismatch_false (payload : list Z) :
  magic_mismatch payload = false <-> take 4 payload = magic.
Proof.
  unfold magic_mismatch.
  rewrite !orb_false_iff, !differs_false.
  destruct payload as [|a [|b [|c [|d rest]]]]; cbn; unfold magic;
    split; intros H; try solve [ intuition congruence ].
  destruct H as [[[? ?] ?] ?]. rewrite take_0. congruence.
Qed.

Lemma magic_mismatch_short (payload : list Z) :
  (length payload < 4)%nat -> magic_mismatch payload = true.
Proof.
  intros Hlen. destruct (magic_mismatch payload) eqn:E; [reflexivity|].
  apply magic_mismatch_false in E.
  assert (length (take 4 payload) = 4%nat) as Hfour by (rewrite E; reflexivity).
  rewrite length_take in Hfour. lia.
Qed.

(** The requests that get past line 170. *)
Lemma validate_accepts (request : Request) (input : Checked) :
  validate request = Returned (inr input) <->
  method request = "POST"%string
  /\ body request = Some (checked_json input)
  /\ PostRequest._bs (checked_json input) = Some (checked_bs input)
  /\ from_option too_long false (PostRequest.description (checked_json input)) = false
  /\ PostRequest.payload (checked_json input) = Some (checked_payload input)
  /\ take 4 (checked_payload input) = magic
  /\ checked_author input = default nanashi (PostRequest.author (checked_json input))
  /\ too_long (checked_author input) = false.
Proof.
  unfold validate. rewrite <- magic_mismatch_false. split.
  - intros H. case_bool_decide as Hm; cbn in H; [|discriminate].
    destruct (body request) as [json|]; [|discriminate].
    destruct (PostRequest._bs json) as [bs|] eqn:Hbs; [|discriminate].
    destruct (from_option too_long false _) eqn:Hd; [discriminate|].
    destruct (PostRequest.payload json) as [payload|] eqn:Hp; [|discriminate].
    destruct (magic_mismatch payload) eqn:Hmm; [discriminate|].
    destruct (too_long _) eqn:Ha; [discriminate|].
    injection H as <-. cbn. auto 10.
  - destruct input as [json bs payload author]. cbn.
    intros (Hm & -> & -> & -> & -> & -> & -> & Ha).
    rewrite bool_decide_eq_true_2 by assumption. cbn. rewrite Ha. reflexivity.
Qed.

(** A response decided by [validate] is sent without calling anyone. *)
Lemma handlePost_rejected (request : Request) (response : Response) env w :
  validate request = Returned (inl response) ->
  handlePost request env w = (Returned response, w).
Proof. intros H. unfold handlePost, mbind, Handler_bind, lift. rewrite H. reflexivity. Qed.

Lemma handlePost_checked (request : Request) (input : Checked) env w :
  validate request = Returned (inr input) ->
  handlePost request env w =
  (resolved ← resolve_target env (PostRequest.id (checked_json input));
   match resolved with
   | inl response => mret response
   | inr target => submit request env input target
   end) w.
Proof. intros H. unfold handlePost at 1, mbind at 1, Handler_bind at 1, lift. rewrite H. reflexivity. Qed.

Lemma validate_inl_failure (request : Request) (response : Response) :
  validate request = Returned (inl response) -> success response = false.
Proof.
  unfold validate. intros H.
  repeat case_match; simplify_eq; reflexivity.
Qed.

(** ** The steps of the workflow *)

Ltac unfold_handler :=
  cbv [rollBack select_image insert_image update_image insert_history
       delete_image delete_histories imgur_upload imgur_delete bucket_put
       mbind mret Handler_bind Handler_ret lift throw try_catch error_of
       alreadyExists negb].

(** The environment flags a step may branch on. *)
Ltac case_env env :=
  destruct (insert_image_error env), (delete_response_ok env),
    (update_error env), (insert_history_error env), (put_outcome env),
    (rollback_images_error env), (rollback_histories_error env).

Lemma resolve_target_none env w :
  resolve_target env None w = (Returned (inr NewImage), w).
Proof. reflexivity. Qed.

Lemma resolve_target_some env i w :
  resolve_target env (Some i) w =
  (if select_error env then Returned (inl internal_server_error)
   else match find (has_id i) (images w) with
        | None => Thrown TypeError
        | Some r =>
          if bool_decide (10 <= Images.count r)
          then Returned (inl already_completed)
          else Returned (inr (ExistingImage i (Images.deleteHash r) (Images.count r)))
        end,
   log (SelectImage i) w).
Proof.
  unfold resolve_target. unfold_handler.
  destruct (select_error env); [reflexivity|].
  destruct (find (has_id i) (images w)) as [r|]; [|reflexivity].
  case_bool_decide; reflexivity.
Qed.

Lemma resolve_target_stores env id w :
  same_stores w (snd (resolve_target env id w)).
Proof.
  destruct id as [i|]; [rewrite resolve_target_some|rewrite resolve_target_none];
    repeat split.
Qed.

(** The only way through [submit] that ends in a success response. *)
Lemma submit_success request env input target w response w' :
  submit request env input target w = (Returned response, w') ->
  success response = true ->
  exists uploaded,
    upload_response env = {| ok := true; data := Some uploaded |}
    /\ response = succeeded (target_id env target)
    /\ images w' =
       match target with
       | NewImage => images w ++ [new_image_row request env input uploaded]
       | ExistingImage i _ c =>
         revise_where i (imgur_id uploaded) (image_time env) (c + 1) (images w)
       end
    /\ histories w' =
       histories w ++ [history_row request env input (target_id env target)]
    /\ bucket w' =
       <[target_id env target ++ js ".bin" := blob_of (checked_payload input)]>
         (bucket w).
Proof.
  unfold submit, persist_image, record_and_store. unfold_handler.
  intros H Hs.
  destruct (upload_response env) as [[|] [uploaded|]] eqn:Hup; cbn in H;
    try (injection H as <- <-; discriminate Hs); try discriminate H.
  exists uploaded. split; [reflexivity|].
  destruct target as [|i d c]; case_env env; cbn in H;
    try (injection H as <- <-; try discriminate Hs; cbn; auto).
Qed.

(** When every collaborator cooperates, [submit] does end in success. *)
Lemma submit_cooperative request env input target uploaded w :
  upload_response env = {| ok := true; data := Some uploaded |} ->
  insert_image_error env = false ->
  delete_response_ok env = true ->
  update_error env = false ->
  insert_history_error env = false ->
  put_outcome env = PutStored ->
  fst (submit request env input target w) = Returned (succeeded (target_id env target)).
Proof.
  unfold submit, persist_image, record_and_store. unfold_handler.
  intros -> -> -> -> -> ->. destruct target; reflexivity.
Qed.

(** A success response of the whole handler. *)
Lemma handlePost_success request env w response w' :
  handlePost request env w = (Returned response, w') ->
  success response = true ->
  exists input target uploaded,
    validate request = Returned (inr input)
    /\ fst (resolve_target env (PostRequest.id (checked_json input)) w)
       = Returned (inr target)
    /\ upload_response env = {| ok := true; data := Some uploaded |}
    /\ response = succeeded (target_id env target)
    /\ images w' =
       match target with
       | NewImage => images w ++ [new_image_row request env input uploaded]
       | ExistingImage i _ c =>
         revise_where i (imgur_id uploaded) (image_time env) (c + 1) (images w)
       end
    /\ histories w' =
       histories w ++ [history_row request env input (target_id env target)]
    /\ bucket w' =
       <[target_id env target ++ js ".bin" := blob_of (checked_payload input)]>
         (bucket w).
Proof.
  intros H Hs.
  destruct (validate request) as [[r|input]|e] eqn:Hv.
  - rewrite (handlePost_rejected _ _ _ _ Hv) in H. injection H as <- <-.
    apply validate_inl_failure in Hv. congruence.
  - rewrite (handlePost_checked _ _ _ _ Hv) in H.
    pose proof (resolve_target_stores env (PostRequest.id (checked_json input)) w)
      as (Hi & Hh & Hb).
    unfold mbind, Handler_bind in H.
    destruct (resolve_target env _ w) as [[[r|target]|e] w1] eqn:Hr; cbn in *.
    + injection H as <- <-.
      destruct (PostRequest.id (checked_json input)) as [i|].
      * rewrite resolve_target_some in Hr. repeat case_match; simplify_eq; discriminate Hs.
      * rewrite resolve_target_none in Hr. discriminate Hr.
    + destruct (submit_success _ _ _ _ _ _ _ H Hs) as (uploaded & ? & ? & ? & ? & ?).
      exists input, target, uploaded. rewrite Hr, <- Hi, <- Hh, <- Hb. auto 10.
    + discriminate H.
  - unfold handlePost, mbind, Handler_bind, lift in H. rewrite Hv in H. discriminate H.
Qed.

Lemma unknown_id_throws request env input i w :
  validate request = Returned (inr input) ->
  PostRequest.id (checked_json input) = Some i ->
  select_error env = false ->
  find (has_id i) (images w) = None ->
  handlePost request env w = (Thrown TypeError, log (SelectImage i) w).
Proof.
  intros Hv Hid Hsel Hfind.
  rewrite (handlePost_checked _ _ _ _ Hv), Hid.
  unfold mbind, Handler_bind.
  rewrite resolve_target_some, Hsel, Hfind. reflexivity.
Qed.

Lemma submit_upload_refused request env input target w :
  ok (upload_response env) = false ->
  submit request env input target w =
  (Returned upload_refused, log (ImgurUpload (strip_data_uri (checked_bs input))) w).
Proof.
  intros Hok. unfold submit. unfold_handler. rewrite Hok. reflexivity.
Qed.

(** ** The claims about validation *)

(** C7. A submission whose payload does not start with the four magic
    bytes is answered 400 "bad request", and the world is left exactly as
    it was: no table is read or written, the image host is not called and
    nothing is put in the bucket. *)
Theorem bad_magic_rejected request env w json payload :
  method request = "POST"%string ->
  body request = Some json ->
  PostRequest.payload json = Some payload ->
  take 4 payload <> magic ->
  handlePost request env w = (Returned bad_request, w)
  /\ status bad_request = 400
  /\ reason bad_request = Some "bad request"%string.
Proof.
  intros Hm Hb Hp Hmagic. split; [|split; reflexivity].
  apply handlePost_rejected. unfold validate.
  rewrite bool_decide_eq_true_2, Hb, Hp by assumption. cbn.
  destruct (PostRequest._bs json); [|reflexivity].
  destruct (from_option too_long false _); [reflexivity|].
  destruct (magic_mismatch payload) eqn:E; [reflexivity|].
  apply magic_mismatch_false in E. contradiction.
Qed.

Lemma bad_magic_rejected_witness :
  handlePost
    (sample_post (sample_body None (Some [0x23; 0x52; 0xff]) (Some sample_bs)))
    cooperative (sample_world 3)
  = (Returned bad_request, sample_world 3).
Proof.
  apply (bad_magic_rejected _ cooperative (sample_world 3)
           (sample_body None (Some [0x23; 0x52; 0xff]) (Some sample_bs))
           [0x23; 0x52; 0xff]);
    [reflexivity | reflexivity | reflexivity | vm_compute; discriminate].
Defined.

(** C9, as the code has it. A submission whose [_bs] field is absent is
    answered 400 "bad request" before anything else happens. *)
Theorem absent_bs_rejected request env w json :
  method request = "POST"%string ->
  body request = Some json ->
  PostRequest._bs json = None ->
  handlePost request env w = (Returned bad_request, w).
Proof.
  intros Hm Hb Hbs. apply handlePost_rejected. unfold validate.
  rewrite bool_decide_eq_true_2, Hb, Hbs by assumption. reflexivity.
Qed.

Lemma absent_bs_rejected_witness :
  handlePost (sample_post (sample_body None (Some sample_payload) None))
    cooperative (sample_world 3)
  = (Returned bad_request, sample_world 3).
Proof.
  apply (absent_bs_rejected _ cooperative (sample_world 3)
           (sample_body None (Some sample_payload) None));
    reflexivity.
Defined.

(** C9 as stated fails: an empty [_bs] passes every check, the empty
    image is sent to the image host, and with cooperating collaborators
    the submission is accepted. *)
Lemma empty_bs_accepted :
  let request := sample_post (sample_body None (Some sample_payload) (Some [])) in
  let refused := sample_env {| ok := false; data := None |} false PutStored in
  validate request
  = Returned (inr {| checked_json := sample_body None (Some sample_payload) (Some []);
                     checked_bs := [];
                     checked_payload := sample_payload;
                     checked_author := nanashi |})
  /\ calls (snd (handlePost request refused empty_world)) = [ImgurUpload []]
  /\ fst (handlePost request cooperative empty_world)
     = Returned (succeeded (js "u1")).
Proof. cbv zeta. repeat split; vm_compute; reflexivity. Qed.

(** When the payload field is present, the checks never throw: either
    they all pass, or the answer is 400 "bad request" with the world
    untouched; a payload shorter than four bytes is always among the
    rejected ones. *)
Lemma validation_reports_failure request :
  method request = "POST"%string ->
  (forall json, body request = Some json -> is_Some (PostRequest.payload json)) ->
  ((exists input, validate request = Returned (inr input))
   \/ (validate request = Returned (inl bad_request)
       /\ forall env w, handlePost request env w = (Returned bad_request, w)))
  /\ (forall json payload,
        body request = Some json ->
        PostRequest.payload json = Some payload ->
        (length payload < 4)%nat ->
        validate request = Returned (inl bad_request)).
Proof.
  intros Hm Hpresent.
  assert (forall json payload,
            body request = Some json ->
            PostRequest.payload json = Some payload ->
            (length payload < 4)%nat ->
            validate request = Returned (inl bad_request)) as Hshort.
  { intros json payload Hb Hp Hlen. unfold validate.
    rewrite bool_decide_eq_true_2, Hb, Hp by assumption. cbn.
    rewrite (magic_mismatch_short _ Hlen).
    repeat case_match; reflexivity. }
  split; [|exact Hshort].
  destruct (validate request) as [[response|input]|e] eqn:Hv.
  - right. assert (response = bad_request) as ->.
    { revert Hv. unfold validate. rewrite bool_decide_eq_true_2 by assumption.
      cbn. repeat case_match; congruence. }
    split; [reflexivity|]. intros env w. apply handlePost_rejected, Hv.
  - left. eauto.
  - exfalso. revert Hv. unfold validate.
    rewrite bool_decide_eq_true_2 by assumption. cbn.
    destruct (body request) as [json|]; [|discriminate].
    destruct (Hpresent json eq_refl) as [payload ->].
    repeat case_match; discriminate.
Qed.

Lemma validation_reports_failure_witness :
  validate (sample_post (sample_body None (Some [0x23; 0x52]) (Some sample_bs)))
  = Returned (inl bad_request).
Proof.
  refine (proj2 (validation_reports_failure
                   (sample_post (sample_body None (Some [0x23; 0x52]) (Some sample_bs)))
                   eq_refl _)
                (sample_body None (Some [0x23; 0x52]) (Some sample_bs))
                [0x23; 0x52] eq_refl eq_refl _).
  - intros json Hjson. injection Hjson as <-. cbn. eexists. reflexivity.
  - cbn. lia.
Defined.

(** C5, on the code. A submission with [_bs] present and no [payload]
    field is not answered 400: line 137 reads [json.payload[0]], which
    throws. The sibling field [_bs] is tested against [null] on line 135;
    [payload] is not. *)
Theorem missing_payload_throws :
  let request := sample_post (sample_body None None (Some sample_bs)) in
  validate request = Thrown TypeError
  /\ handlePost request cooperative empty_world = (Thrown TypeError, empty_world).
Proof. split; reflexivity. Qed.

(** ** The UPDATE of line 314 *)

Lemma revise_where_lookup i imgurId created_at count rows (k : nat) :
  revise_where i imgurId created_at count rows !! k =
  (fun r => if has_id i r then revise imgurId created_at count r else r)
    <$> rows !! k.
Proof.
  revert k. induction rows as [|r rows IH]; intros [|k]; cbn; auto.
Qed.

Lemma revise_where_length i imgurId created_at count rows :
  length (revise_where i imgurId created_at count rows) = length rows.
Proof. unfold revise_where. apply length_map. Qed.

Lemma revise_where_find i imgurId created_at count rows r :
  find (has_id i) rows = Some r ->
  find (has_id i) (revise_where i imgurId created_at count rows)
  = Some (revise imgurId created_at count r).
Proof.
  induction rows as [|x rows IH]; cbn; [discriminate|].
  destruct (has_id i x) eqn:Hx.
  - intros [= ->]. cbn. unfold has_id in *. cbn. rewrite Hx. reflexivity.
  - intros Hfind. rewrite Hx. apply IH, Hfind.
Qed.

Lemma find_has_id i rows r :
  find (has_id i) rows = Some r -> r ∈ rows /\ Images.id r = i.
Proof.
  intros H. apply find_some in H as [Hin Hid].
  split; [apply list_elem_of_In, Hin|].
  unfold has_id in Hid. apply bool_decide_eq_true in Hid. exact Hid.
Qed.

(** ** The range of the [count] column *)

Lemma in_range_filter (P : Images.row -> Prop) `{!forall r, Decision (P r)} rows :
  in_range rows -> in_range (filter P rows).
Proof.
  unfold in_range. rewrite !Forall_forall. intros Hrows r Hr.
  apply list_elem_of_filter in Hr as [_ Hr]. auto.
Qed.

Lemma in_range_insert rows r :
  in_range rows -> 1 <= Images.count r <= 10 -> in_range (rows ++ [r]).
Proof. intros H Hr. apply Forall_app. split; [exact H|]. constructor; [exact Hr|constructor]. Qed.

Lemma in_range_revise i imgurId created_at count rows :
  in_range rows -> 1 <= count <= 10 ->
  in_range (revise_where i imgurId created_at count rows).
Proof.
  unfold in_range, revise_where. intros H Hc. rewrite List.Forall_map.
  eapply Forall_impl; [exact H|]. intros r Hr. cbn in Hr.
  destruct (has_id i r); [exact Hc|exact Hr].
Qed.

Ltac solve_in_range :=
  repeat first
    [ assumption
    | apply in_range_filter
    | apply in_range_revise; [|lia]
    | apply in_range_insert; [|cbn; lia] ].

Lemma submit_count_in_range request env input target w :
  target_in_range target ->
  count_in_range w ->
  count_in_range (snd (submit request env input target w)).
Proof.
  unfold count_in_range.
  unfold submit, persist_image, record_and_store. unfold_handler.
  intros Ht Hw.
  destruct (upload_response env) as [[|] [uploaded|]]; cbn; try assumption.
  destruct target as [|i d c]; cbn in Ht; case_env env; cbn; solve_in_range.
Qed.

Lemma handlePost_count_in_range request env w :
  count_in_range w -> count_in_range (snd (handlePost request env w)).
Proof.
  intros Hw.
  destruct (validate request) as [[r|input]|e] eqn:Hv.
  - rewrite (handlePost_rejected _ _ _ _ Hv). exact Hw.
  - rewrite (handlePost_checked _ _ _ _ Hv). unfold mbind, Handler_bind.
    destruct (PostRequest.id (checked_json input)) as [i|].
    + rewrite resolve_target_some.
      destruct (select_error env); [exact Hw|].
      destruct (find (has_id i) (images w)) as [r|] eqn:Hfind; [|exact Hw].
      case_bool_decide as Hten; [exact Hw|].
      apply submit_count_in_range; [|exact Hw].
      apply find_has_id in Hfind as [Hin _].
      unfold count_in_range, in_range in Hw. rewrite Forall_forall in Hw.
      specialize (Hw r Hin). cbn in *. lia.
    + rewrite resolve_target_none. apply submit_count_in_range; [exact I|exact Hw].
  - unfold handlePost, mbind, Handler_bind, lift. rewrite Hv. exact Hw.
Qed.

Lemma run_count_in_range steps w :
  count_in_range w -> count_in_range (run steps w).
Proof.
  revert w. induction steps as [|[request env] steps IH]; intros w Hw; cbn.
  - exact Hw.
  - apply IH, handlePost_count_in_range, Hw.
Qed.

(** ** Accepted submissions *)

Lemma accepted_creation request env w response w' json :
  handlePost request env w = (Returned response, w') ->
  success response = true ->
  body request = Some json ->
  PostRequest.id json = None ->
  exists input uploaded,
    validate request = Returned (inr input)
    /\ upload_response env = {| ok := true; data := Some uploaded |}
    /\ response = succeeded (image_uuid env)
    /\ images w' = images w ++ [new_image_row request env input uploaded]
    /\ histories w' = histories w ++ [history_row request env input (image_uuid env)]
    /\ bucket w' =
       <[image_uuid env ++ js ".bin" := blob_of (checked_payload input)]> (bucket w).
Proof.
  intros H Hs Hb Hid.
  destruct (handlePost_success _ _ _ _ _ H Hs)
    as (input & target & uploaded & Hv & Ht & Hup & Hresp & Hrest).
  pose proof (proj1 (validate_accepts _ _) Hv) as (_ & Hjson & _).
  rewrite Hb in Hjson. injection Hjson as Hjson. subst json.
  rewrite Hid, resolve_target_none in Ht. injection Ht as <-.
  exists input, uploaded. auto 10.
Qed.

Lemma accepted_revision request env w response w' json i :
  handlePost request env w = (Returned response, w') ->
  success response = true ->
  body request = Some json ->
  PostRequest.id json = Some i ->
  exists input uploaded r,
    validate request = Returned (inr input)
    /\ upload_response env = {| ok := true; data := Some uploaded |}
    /\ find (has_id i) (images w) = Some r
    /\ Images.count r < 10
    /\ response = succeeded i
    /\ images w' =
       revise_where i (imgur_id uploaded) (image_time env) (Images.count r + 1)
         (images w)
    /\ histories w' = histories w ++ [history_row request env input i]
    /\ bucket w' = <[i ++ js ".bin" := blob_of (checked_payload input)]> (bucket w).
Proof.
  intros H Hs Hb Hid.
  destruct (handlePost_success _ _ _ _ _ H Hs)
    as (input & target & uploaded & Hv & Ht & Hup & Hresp & Hrest).
  pose proof (proj1 (validate_accepts _ _) Hv) as (_ & Hjson & _).
  rewrite Hb in Hjson. injection Hjson as Hjson. subst json.
  rewrite Hid, resolve_target_some in Ht. cbn in Ht.
  destruct (select_error env); [discriminate|].
  destruct (find (has_id i) (images w)) as [r|]; [|discriminate].
  case_bool_decide as Hten; [discriminate|].
  injection Ht as <-. cbn in *.
  exists input, uploaded, r. repeat split; try tauto; lia.
Qed.

(** A cooperative environment leads every checked submission whose target
    resolves to a success response. *)
Lemma cooperative_success request env w input target uploaded :
  validate request = Returned (inr input) ->
  fst (resolve_target env (PostRequest.id (checked_json input)) w)
  = Returned (inr target) ->
  upload_response env = {| ok := true; data := Some uploaded |} ->
  insert_image_error env = false ->
  delete_response_ok env = true ->
  update_error env = false ->
  insert_history_error env = false ->
  put_outcome env = PutStored ->
  fst (handlePost request env w) = Returned (succeeded (target_id env target)).
Proof.
  intros Hv Ht Hup Hii Hd Hu Hh Hp.
  rewrite (handlePost_checked _ _ _ _ Hv). unfold mbind, Handler_bind.
  destruct (resolve_target env _ w) as [c w1]. cbn in Ht. subst c.
  eapply submit_cooperative; eassumption.
Qed.

(** A locked artifact: the lookup is the only call made. *)
Lemma locked_revision request env w input i r :
  validate request = Returned (inr input) ->
  PostRequest.id (checked_json input) = Some i ->
  select_error env = false ->
  find (has_id i) (images w) = Some r ->
  10 <= Images.count r ->
  handlePost request env w = (Returned already_completed, log (SelectImage i) w).
Proof.
  intros Hv Hid Hsel Hfind Hten.
  rewrite (handlePost_checked _ _ _ _ Hv), Hid. unfold mbind, Handler_bind.
  rewrite resolve_target_some, Hsel, Hfind, bool_decide_eq_true_2 by exact Hten.
  reflexivity.
Qed.

(** Whatever else a request for a locked artifact carries, and however the
    collaborators behave, the three stores stay as they are. *)
Lemma locked_stores request env w json i r :
  body request = Some json ->
  PostRequest.id json = Some i ->
  find (has_id i) (images w) = Some r ->
  10 <= Images.count r ->
  same_stores w (snd (handlePost request env w)).
Proof.
  intros Hb Hid Hfind Hten.
  destruct (validate request) as [[response|input]|e] eqn:Hv.
  - rewrite (handlePost_rejected _ _ _ _ Hv). repeat split.
  - pose proof (proj1 (validate_accepts _ _) Hv) as (_ & Hjson & _).
    rewrite Hb in Hjson. injection Hjson as Hjson. subst json.
    rewrite (handlePost_checked _ _ _ _ Hv), Hid. unfold mbind, Handler_bind.
    rewrite resolve_target_some, Hfind, bool_decide_eq_true_2 by exact Hten.
    destruct (select_error env); repeat split.
  - unfold handlePost, mbind, Handler_bind, lift. rewrite Hv. repeat split.
Qed.

(** ** The claims about accepted submissions *)

(** C8. A checked submission that carries no artifact id and a
    description (so that every value bound on line 270 is defined) is
    answered, whenever the collaborators cooperate, with status 200,
    success and the generated id as result; and whenever a submission
    without id is answered with a success, the answer is that one, the
    [Images] table has gained one row with that id and [count] 1, and the
    [Histories] table has gained one row that refers to that id. *)
Theorem new_submission_creates request env w input :
  validate request = Returned (inr input) ->
  PostRequest.id (checked_json input) = None ->
  let accepted :=
    {| status := 200; success := true; reason := None;
       result := Some (image_uuid env); headers := cors |} in
  (forall uploaded,
      is_Some (PostRequest.description (checked_json input)) ->
      upload_response env = {| ok := true; data := Some uploaded |} ->
      insert_image_error env = false ->
      insert_history_error env = false ->
      put_outcome env = PutStored ->
      fst (handlePost request env w) = Returned accepted)
  /\ (forall response,
        fst (handlePost request env w) = Returned response ->
        success response = true ->
        response = accepted
        /\ exists r h,
            images (snd (handlePost request env w)) = images w ++ [r]
            /\ Images.id r = image_uuid env
            /\ Images.count r = 1
            /\ histories (snd (handlePost request env w)) = histories w ++ [h]
            /\ Histories.image_id h = image_uuid env).
Proof.
  intros Hv Hid accepted. subst accepted. split.
  - intros uploaded _ Hup Hii Hh Hp.
    rewrite (handlePost_checked _ _ _ _ Hv), Hid. unfold mbind, Handler_bind.
    rewrite resolve_target_none.
    unfold submit, persist_image, record_and_store. unfold_handler.
    rewrite Hup, Hii, Hh, Hp. reflexivity.
  - intros response Hresp Hs.
    pose proof (proj1 (validate_accepts _ _) Hv) as (_ & Hjson & _).
    destruct (handlePost request env w) as [c w'] eqn:H. cbn in Hresp. subst c.
    destruct (accepted_creation _ _ _ _ _ _ H Hs Hjson Hid)
      as (input' & uploaded & _ & _ & -> & Hi & Hh & _).
    split; [reflexivity|]. cbn. eauto 10.
Qed.

Lemma new_submission_creates_witness :
  fst (handlePost (sample_submission None) cooperative empty_world)
  = Returned {| status := 200; success := true; reason := None;
                result := Some (js "u1"); headers := cors |}
  /\ exists r h,
      images (snd (handlePost (sample_submission None) cooperative empty_world))
      = images empty_world ++ [r]
      /\ Images.id r = js "u1"
      /\ Images.count r = 1
      /\ histories (snd (handlePost (sample_submission None) cooperative empty_world))
         = histories empty_world ++ [h]
      /\ Histories.image_id h = js "u1".
Proof.
  split.
  - exact (proj1 (new_submission_creates (sample_submission None) cooperative
                    empty_world (sample_checked None) eq_refl eq_refl)
                 sample_upload (ex_intro _ (js "cat") eq_refl)
                 eq_refl eq_refl eq_refl eq_refl).
  - exact (proj2 (proj2 (new_submission_creates (sample_submission None) cooperative
                           empty_world (sample_checked None) eq_refl eq_refl)
                        {| status := 200; success := true; reason := None;
                           result := Some (js "u1"); headers := cors |}
                        eq_refl eq_refl)).
Defined.

(** C10. An accepted revision of artifact [i] keeps the [Images] table
    row for row: every row keeps its id, author, ip, description and
    delete hash, and a row whose id is not [i] is not changed at all. *)
Theorem revision_frame request env w response w' json i :
  handlePost request env w = (Returned response, w') ->
  success response = true ->
  body request = Some json ->
  PostRequest.id json = Some i ->
  length (images w') = length (images w)
  /\ forall (k : nat) r,
      images w !! k = Some r ->
      exists r',
        images w' !! k = Some r'
        /\ Images.id r' = Images.id r
        /\ Images.author r' = Images.author r
        /\ Images.ip r' = Images.ip r
        /\ Images.description r' = Images.description r
        /\ Images.deleteHash r' = Images.deleteHash r
        /\ (Images.id r <> i -> r' = r).
Proof.
  intros H Hs Hb Hid.
  destruct (accepted_revision _ _ _ _ _ _ _ H Hs Hb Hid)
    as (input & uploaded & r0 & _ & _ & _ & _ & _ & -> & _).
  split; [apply revise_where_length|].
  intros k r Hk. rewrite revise_where_lookup, Hk. cbn.
  eexists. split; [reflexivity|].
  unfold has_id. case_bool_decide as Hr; cbn; [|tauto].
  repeat split; try reflexivity. intros Hne. contradiction.
Qed.

Lemma revision_frame_witness :
  length (images (snd (handlePost (sample_submission (Some (js "a"))) cooperative
                         (sample_world 3))))
  = length (images (sample_world 3)).
Proof.
  refine (proj1 (revision_frame (sample_submission (Some (js "a"))) cooperative
                   (sample_world 3) (succeeded (js "a")) _
                   (sample_body (Some (js "a")) (Some sample_payload) (Some sample_bs))
                   (js "a") _ eq_refl eq_refl eq_refl)).
  vm_compute. reflexivity.
Defined.

(** C2. In any run of submissions the [count] column stays between 1 and
    10; a created row has [count] 1; an accepted revision raises the
    [count] of the looked-up row by exactly 1; and once that [count] has
    reached 10 a checked revision request is answered 423 after the lookup
    alone, while no request for that id changes any store. *)
Theorem revision_count_bounds :
  (forall steps w, count_in_range w -> count_in_range (run steps w))
  /\ (forall steps, count_in_range (run steps empty_world))
  /\ (forall request env w response w' json,
        handlePost request env w = (Returned response, w') ->
        success response = true ->
        body request = Some json ->
        PostRequest.id json = None ->
        exists r,
          images w' = images w ++ [r]
          /\ Images.id r = image_uuid env /\ Images.count r = 1)
  /\ (forall request env w response w' json i,
        handlePost request env w = (Returned response, w') ->
        success response = true ->
        body request = Some json ->
        PostRequest.id json = Some i ->
        exists r r',
          find (has_id i) (images w) = Some r
          /\ find (has_id i) (images w') = Some r'
          /\ Images.count r' = Images.count r + 1)
  /\ (forall request env w input i r,
        validate request = Returned (inr input) ->
        PostRequest.id (checked_json input) = Some i ->
        select_error env = false ->
        find (has_id i) (images w) = Some r ->
        10 <= Images.count r ->
        handlePost request env w
        = (Returned already_completed, log (SelectImage i) w)
        /\ status already_completed = 423)
  /\ (forall request env w json i r,
        body request = Some json ->
        PostRequest.id json = Some i ->
        find (has_id i) (images w) = Some r ->
        10 <= Images.count r ->
        same_stores w (snd (handlePost request env w))).
Proof.
  split; [exact run_count_in_range|].
  split; [intros steps; apply run_count_in_range; constructor|].
  split.
  { intros request env w response w' json H Hs Hb Hid.
    destruct (accepted_creation _ _ _ _ _ _ H Hs Hb Hid)
      as (input & uploaded & _ & _ & _ & -> & _).
    eexists. split; [reflexivity|]. split; reflexivity. }
  split.
  { intros request env w response w' json i H Hs Hb Hid.
    destruct (accepted_revision _ _ _ _ _ _ _ H Hs Hb Hid)
      as (input & uploaded & r & _ & _ & Hfind & _ & _ & -> & _).
    exists r. eexists. split; [exact Hfind|].
    split; [apply revise_where_find, Hfind|]. reflexivity. }
  split.
  { intros request env w input i r Hv Hid Hsel Hfind Hten.
    split; [eapply locked_revision; eassumption|reflexivity]. }
  exact locked_stores.
Qed.

Lemma revision_count_bounds_witness :
  count_in_range
    (run [(sample_submission None, cooperative);
          (sample_submission (Some (js "u1")), cooperative)]
         (sample_world 9))
  /\ handlePost (sample_submission (Some (js "a"))) cooperative (sample_world 10)
     = (Returned already_completed, log (SelectImage (js "a")) (sample_world 10)).
Proof.
  split.
  - apply (proj1 revision_count_bounds).
    repeat constructor; cbn; lia.
  - apply (proj1 (proj2 (proj2 (proj2 (proj2 revision_count_bounds))))
             (sample_submission (Some (js "a"))) cooperative (sample_world 10)
             (sample_checked (Some (js "a"))) (js "a") (stored_image 10));
      [reflexivity | reflexivity | reflexivity | reflexivity | cbn; lia].
Defined.

(** The scenario of the specification: a creation, nine accepted
    revisions, and an eleventh submission that finds the artifact locked. *)
Example ten_revisions :
  let steps :=
    (sample_submission None, cooperative)
    :: repeat (sample_submission (Some (js "u1")), cooperative) 9 in
  map Images.count (images (run steps empty_world)) = [10]
  /\ fst (handlePost (sample_submission (Some (js "u1"))) cooperative
            (run steps empty_world))
     = Returned already_completed.
Proof. vm_compute. split; reflexivity. Qed.

(** ** Where the handler departs from its description *)

(** A failed or faulting [BUCKET.put] runs [rollBack] whatever the target
    is: lines 383-385 and 399-400 do not test [alreadyExists]. *)
Lemma blob_failure_rolls_back request env input target imageId w :
  insert_history_error env = false ->
  put_outcome env <> PutStored ->
  record_and_store request env input target imageId w =
  (Returned internal_server_error,
   snd (rollBack env imageId
          (log (BucketPut (imageId ++ js ".bin") (blob_of (checked_payload input)))
             (set_histories
                (histories w ++ [history_row request env input imageId])
                (log (InsertHistory (history_row request env input imageId)) w))))).
Proof.
  intros Hh Hp. unfold record_and_store. unfold_handler. rewrite Hh.
  destruct (put_outcome env); [contradiction| |];
    destruct (rollback_images_error env), (rollback_histories_error env);
    reflexivity.
Qed.

(** The sibling path: a failed history insert (lines 354-358) leaves an
    existing artifact alone. *)
Lemma history_failure_keeps_existing request env input i d c w :
  insert_history_error env = true ->
  record_and_store request env input (ExistingImage i d c) i w =
  (Returned internal_server_error,
   log (InsertHistory (history_row request env input i)) w).
Proof.
  intros Hh. unfold record_and_store. unfold_handler. rewrite Hh. reflexivity.
Qed.

(** C1, on the code. Revising the stored artifact [a] while the bucket
    write fails (it yields [null], or it throws) deletes the row of [a]
    and every history row of [a], although both existed before the
    request. *)
Theorem blob_failure_deletes_existing_artifact :
  let accepted := {| ok := true; data := Some sample_upload |} in
  let revision := sample_submission (Some (js "a")) in
  let after_null :=
    handlePost revision (sample_env accepted false PutNull) (sample_world 3) in
  let after_fault :=
    handlePost revision (sample_env accepted false PutThrows) (sample_world 3) in
  histories (sample_world 3) = [stored_history]
  /\ fst after_null = Returned internal_server_error
  /\ images (snd after_null) = [other_image]
  /\ histories (snd after_null) = []
  /\ fst after_fault = Returned internal_server_error
  /\ images (snd after_fault) = [other_image]
  /\ histories (snd after_fault) = [].
Proof. vm_compute. repeat split; reflexivity. Qed.

(** C3, on the code. A well-formed revision request for an id that no row
    of [Images] carries makes [first()] yield [null]; line 185 reads
    [existingImage.error] before line 201 tests the value, so the handler
    throws after the lookup and the 400 answer of lines 216-227 is never
    built. *)
Theorem unknown_id_throws_on_sample :
  find (has_id (js "zz")) (images (sample_world 3)) = None
  /\ handlePost (sample_submission (Some (js "zz"))) cooperative (sample_world 3)
     = (Thrown TypeError, log (SelectImage (js "zz")) (sample_world 3)).
Proof. split; reflexivity. Qed.

(** C4, on the code. An accepted revision of artifact [a] stores the new
    imgur id, the new time and the raised count, but the row keeps the
    delete hash it had: the one returned for this upload is dropped. *)
Theorem revision_keeps_old_delete_token :
  let after :=
    handlePost (sample_submission (Some (js "a"))) cooperative (sample_world 3) in
  fst after = Returned (succeeded (js "a"))
  /\ deletehash sample_upload = js "d1"
  /\ images (snd after)
     = [ {| Images.id := js "a";
            Images.author := js "ann";
            Images.ip := None;
            Images.description := Some (js "tree");
            Images.imgurId := js "i1";
            Images.count := 4;
            Images.deleteHash := js "d0";
            Images.created_at := 100 |};
         other_image ].
Proof. vm_compute. repeat split; reflexivity. Qed.

(** C6, on the code. When the image host refuses the upload, the answer
    has status 500 and no store is changed, but its reason is "bad
    request", not "internal server error". *)
Theorem upload_failure_reason :
  let refused := {| ok := false; data := None |} in
  let after :=
    handlePost (sample_submission None) (sample_env refused false PutStored)
      (sample_world 3) in
  fst after = Returned upload_refused
  /\ status upload_refused = 500
  /\ reason upload_refused = Some "bad request"%string
  /\ upload_refused <> internal_server_error
  /\ same_stores (sample_world 3) (snd after).
Proof.
  cbv zeta. split; [reflexivity|]. split; [reflexivity|]. split; [reflexivity|].
  split; [discriminate|]. repeat split.
Qed.

(** * Further properties of the handlers *)

(** ** The length limits of lines 136 and 157 *)

(** X1. A description of more than 20 code units is answered 400 before
    the payload is read: the answer is the same whether the payload and
    [_bs] are present or not, and nothing is called. *)
Theorem long_description_rejected request env w json d :
  method request = "POST"%string ->
  body request = Some json ->
  PostRequest.description json = Some d ->
  (20 < length d)%nat ->
  handlePost request env w = (Returned bad_request, w).
Proof.
  intros Hm Hb Hd Hlen. apply handlePost_rejected. unfold validate.
  rewrite bool_decide_eq_true_2, Hb, Hd by assumption. cbn.
  unfold too_long. rewrite bool_decide_eq_true_2 by exact Hlen.
  destruct (PostRequest._bs json); reflexivity.
Qed.

Lemma long_description_rejected_witness :
  handlePost
    (sample_post {| PostRequest.id := None;
                    PostRequest.payload := None;
                    PostRequest.description := Some (repeat 0x61%N 21);
                    PostRequest.author := None;
                    PostRequest._bs := Some sample_bs |})
    cooperative empty_world
  = (Returned bad_request, empty_world).
Proof.
  apply (long_description_rejected _ cooperative empty_world
           {| PostRequest.id := None;
              PostRequest.payload := None;
              PostRequest.description := Some (repeat 0x61%N 21);
              PostRequest.author := None;
              PostRequest._bs := Some sample_bs |}
           (repeat 0x61%N 21));
    [reflexivity | reflexivity | reflexivity | cbn; lia].
Defined.

(** X2. With the payload field present, an author of more than 20 code
    units is answered 400 whatever the other fields are, and nothing is
    called; an absent author never is, since the placeholder has three
    code units. *)
Theorem long_author_rejected request env w json payload :
  method request = "POST"%string ->
  body request = Some json ->
  PostRequest.payload json = Some payload ->
  (20 < length (default nanashi (PostRequest.author json)))%nat ->
  handlePost request env w = (Returned bad_request, w)
  /\ PostRequest.author json <> None.
Proof.
  intros Hm Hb Hp Hlen. split.
  - apply handlePost_rejected. unfold validate.
    rewrite bool_decide_eq_true_2, Hb, Hp by assumption. cbn.
    unfold too_long at 2. rewrite bool_decide_eq_true_2 by exact Hlen.
    repeat case_match; reflexivity.
  - intros Hnone. rewrite Hnone in Hlen. cbn in Hlen. lia.
Qed.

Lemma long_author_rejected_witness :
  handlePost
    (sample_post {| PostRequest.id := None;
                    PostRequest.payload := Some sample_payload;
                    PostRequest.description := None;
                    PostRequest.author := Some (repeat 0x61%N 21);
                    PostRequest._bs := Some sample_bs |})
    cooperative empty_world
  = (Returned bad_request, empty_world).
Proof.
  apply (long_author_rejected _ cooperative empty_world
           {| PostRequest.id := None;
              PostRequest.payload := Some sample_payload;
              PostRequest.description := None;
              PostRequest.author := Some (repeat 0x61%N 21);
              PostRequest._bs := Some sample_bs |}
           sample_payload);
    [reflexivity | reflexivity | reflexivity | cbn; lia].
Defined.

(** ** The data-URI prefix of line 238 *)

Lemma strip_prefix_app (p s : jsstring) : strip_prefix p (p ++ s) = Some s.
Proof.
  unfold strip_prefix.
  rewrite take_app_length, drop_app_length, bool_decide_eq_true_2; reflexivity.
Qed.

Lemma strip_prefix_Some (p s rest : jsstring) :
  strip_prefix p s = Some rest -> s = p ++ rest.
Proof.
  unfold strip_prefix. case_bool_decide as Hp; [|discriminate].
  intros [= <-]. rewrite <- Hp at 1. symmetry. apply take_drop.
Qed.

(** X3. What is sent to the image host: a [data:image/png;base64,] or
    [data:image/jpeg;base64,] prefix is cut off once, and a string that
    starts with neither is sent as it is; in every case the rest of the
    string is kept. *)
Theorem strip_data_uri_spec (s : jsstring) :
  strip_data_uri (js "data:image/png;base64," ++ s) = s
  /\ strip_data_uri (js "data:image/jpeg;base64," ++ s) = s
  /\ (strip_data_uri s = s
      \/ s = js "data:image/png;base64," ++ strip_data_uri s
      \/ s = js "data:image/jpeg;base64," ++ strip_data_uri s).
Proof.
  split; [|split].
  - unfold strip_data_uri. rewrite strip_prefix_app. reflexivity.
  - unfold strip_data_uri. rewrite strip_prefix_app.
    destruct (strip_prefix (js "data:image/png;base64,") _) as [rest|] eqn:E;
      [|reflexivity].
    apply strip_prefix_Some in E. vm_compute in E. discriminate E.
  - unfold strip_data_uri.
    destruct (strip_prefix (js "data:image/png;base64,") s) as [rest|] eqn:E1.
    { right. left. apply strip_prefix_Some, E1. }
    destruct (strip_prefix (js "data:image/jpeg;base64,") s) as [rest|] eqn:E2.
    { right. right. apply strip_prefix_Some, E2. }
    left. reflexivity.
Qed.

(** ** The compensation of lines 335-345 *)

Lemma rollBack_stores env i w :
  images (snd (rollBack env i w)) =
    (if rollback_images_error env then images w
     else filter (fun r => Images.id r <> i) (images w))
  /\ histories (snd (rollBack env i w)) =
    (if rollback_histories_error env then histories w
     else filter (fun h => Histories.image_id h <> i) (histories w))
  /\ bucket (snd (rollBack env i w)) = bucket w
  /\ calls (snd (rollBack env i w)) = calls w ++ [DeleteImage i; DeleteHistories i].
Proof.
  unfold_handler.
  destruct (rollback_images_error env), (rollback_histories_error env); cbn;
    rewrite <- app_assoc; auto.
Qed.

(** X4. When both DELETE statements take effect, [rollBack] leaves no
    [Images] row with the id and no [Histories] row that refers to it,
    keeps every other row of both tables, and leaves the bucket alone:
    the stored object and the uploaded preview are not removed. *)
Theorem rollBack_removes env i w :
  rollback_images_error env = false ->
  rollback_histories_error env = false ->
  let w' := snd (rollBack env i w) in
  (forall r, r ∈ images w' <-> r ∈ images w /\ Images.id r <> i)
  /\ (forall h, h ∈ histories w' <-> h ∈ histories w /\ Histories.image_id h <> i)
  /\ find (has_id i) (images w') = None
  /\ bucket w' = bucket w
  /\ calls w' = calls w ++ [DeleteImage i; DeleteHistories i].
Proof.
  intros Hi Hh w'. subst w'.
  destruct (rollBack_stores env i w) as (-> & -> & -> & ->). rewrite Hi, Hh.
  split; [intros r; rewrite list_elem_of_filter; tauto|].
  split; [intros h; rewrite list_elem_of_filter; tauto|].
  split; [|split; reflexivity].
  destruct (find (has_id i) _) as [r|] eqn:Hfind; [|reflexivity].
  apply find_has_id in Hfind as [Hin Hid].
  apply list_elem_of_filter in Hin as [Hne _]. contradiction.
Qed.

Lemma rollBack_removes_witness :
  find (has_id (js "a")) (images (snd (rollBack cooperative (js "a") (sample_world 3))))
  = None.
Proof.
  exact (proj1 (proj2 (proj2 (rollBack_removes cooperative (js "a") (sample_world 3)
                                 eq_refl eq_refl)))).
Defined.

Lemma filter_all {A} (P : A -> Prop) `{!forall x, Decision (P x)} (l : list A) :
  (forall x, x ∈ l -> P x) -> filter P l = l.
Proof.
  induction l as [|x l IH]; intros Hall; [reflexivity|].
  rewrite filter_cons_True by (apply Hall; left).
  f_equal. apply IH. intros y Hy. apply Hall. right. exact Hy.
Qed.

Lemma filter_none {A} (P : A -> Prop) `{!forall x, Decision (P x)} (l : list A) :
  (forall x, x ∈ l -> ~ P x) -> filter P l = [].
Proof.
  induction l as [|x l IH]; intros Hall; [reflexivity|].
  rewrite filter_cons_False by (apply Hall; left).
  apply IH. intros y Hy. apply Hall. right. exact Hy.
Qed.

Lemma filter_twice {A} (P : A -> Prop) `{!forall x, Decision (P x)} (l : list A) :
  filter P (filter P l) = filter P l.
Proof.
  apply filter_all. intros x Hx. apply list_elem_of_filter in Hx. tauto.
Qed.

(** X5. [rollBack] is safe to repeat and safe without rows: a second
    call leaves the three stores as the first one left them, and a call
    for an id that no row carries changes no store, whatever the DELETE
    statements report. *)
Theorem rollBack_idempotent env i w :
  same_stores (snd (rollBack env i w))
              (snd (rollBack env i (snd (rollBack env i w))))
  /\ ((forall r, r ∈ images w -> Images.id r <> i) ->
      (forall h, h ∈ histories w -> Histories.image_id h <> i) ->
      same_stores w (snd (rollBack env i w))).
Proof.
  unfold same_stores. split.
  - destruct (rollBack_stores env i (snd (rollBack env i w))) as (-> & -> & -> & _).
    destruct (rollBack_stores env i w) as (-> & -> & _ & _).
    destruct (rollback_images_error env), (rollback_histories_error env);
      repeat split; apply filter_twice.
  - intros Himg Hhist.
    destruct (rollBack_stores env i w) as (-> & -> & -> & _).
    destruct (rollback_images_error env), (rollback_histories_error env);
      repeat split; apply filter_all; assumption.
Qed.

Lemma rollBack_idempotent_witness :
  same_stores (sample_world 3) (snd (rollBack cooperative (js "zz") (sample_world 3))).
Proof.
  apply (proj2 (rollBack_idempotent cooperative (js "zz") (sample_world 3))).
  - intros r Hr. apply list_elem_of_In in Hr. cbn in Hr.
    destruct Hr as [<-|[<-|[]]]; vm_compute; discriminate.
  - intros h Hh. apply list_elem_of_In in Hh. cbn in Hh.
    destruct Hh as [<-|[]]; vm_compute; discriminate.
Defined.

(** ** The shape of a request's progress *)

Lemma handlePost_unfold request env w :
  handlePost request env w =
  match validate request with
  | Returned (inl response) => (Returned response, w)
  | Returned (inr input) =>
    match resolve_target env (PostRequest.id (checked_json input)) w with
    | (Returned (inl response), w1) => (Returned response, w1)
    | (Returned (inr target), w1) => submit request env input target w1
    | (Thrown e, w1) => (Thrown e, w1)
    end
  | Thrown e => (Thrown e, w)
  end.
Proof.
  unfold handlePost, mbind, Handler_bind, lift.
  destruct (validate request) as [[response|input]|e]; try reflexivity.
  destruct (resolve_target env _ w) as [[[response|target]|e] w1]; reflexivity.
Qed.

Lemma validate_inl request response :
  validate request = Returned (inl response) ->
  response = method_not_allowed \/ response = bad_request.
Proof.
  unfold validate. intros H. repeat case_match; simplify_eq; auto.
Qed.

Lemma resolve_target_inl env id w response w1 :
  resolve_target env id w = (Returned (inl response), w1) ->
  (response = internal_server_error \/ response = already_completed)
  /\ same_stores w w1.
Proof.
  intros H. pose proof (resolve_target_stores env id w) as Hs.
  rewrite H in Hs. split; [|exact Hs].
  destruct id as [i|]; [|discriminate H].
  rewrite resolve_target_some in H.
  repeat case_match; simplify_eq; auto.
Qed.

Lemma resolve_target_inr env id w target w1 :
  resolve_target env id w = (Returned (inr target), w1) ->
  (id = None /\ target = NewImage /\ w1 = w)
  \/ (exists i r,
        id = Some i
        /\ select_error env = false
        /\ find (has_id i) (images w) = Some r
        /\ Images.count r < 10
        /\ target = ExistingImage i (Images.deleteHash r) (Images.count r)
        /\ w1 = log (SelectImage i) w).
Proof.
  destruct id as [i|].
  - rewrite resolve_target_some. intros H. right.
    destruct (select_error env); [discriminate|].
    destruct (find (has_id i) (images w)) as [r|] eqn:Hfind; [|discriminate].
    case_bool_decide as Hten; [discriminate|].
    injection H as <- <-. exists i, r. repeat split; auto; lia.
  - rewrite resolve_target_none. intros [= <- <-]. left. auto.
Qed.

Lemma resolve_target_id env id w target w1 :
  resolve_target env id w = (Returned (inr target), w1) ->
  target_id env target = default (image_uuid env) id.
Proof.
  intros H. apply resolve_target_inr in H
    as [(-> & -> & _)|(i & r & -> & _ & _ & _ & -> & _)]; reflexivity.
Qed.

Lemma submit_responses request env input target w response w' :
  submit request env input target w = (Returned response, w') ->
  response = upload_refused
  \/ response = internal_server_error
  \/ response = succeeded (target_id env target).
Proof.
  unfold submit, persist_image, record_and_store. unfold_handler.
  intros H.
  destruct (upload_response env) as [[|] [uploaded|]]; cbn in H;
    try (injection H as <- <-; auto); try discriminate H.
  destruct target as [|i d c]; case_env env; cbn in H;
    injection H as <- <-; auto.
Qed.

(** X6. The answers of [handlePost]: one of six, the success carrying the
    id the request names or the generated one. "invalid image id" is not
    among them, a success is exactly a status 200, and every answer but
    the 423 carries the CORS headers. *)
Theorem handlePost_responses request env w response w' :
  handlePost request env w = (Returned response, w') ->
  response ∈ [ method_not_allowed; bad_request; already_completed;
               internal_server_error; upload_refused;
               succeeded (artifact_of request env) ]
  /\ response <> invalid_image_id
  /\ (success response = true <-> status response = 200)
  /\ (status response <> 423 -> headers response = cors).
Proof.
  intros H.
  assert (response ∈ [ method_not_allowed; bad_request; already_completed;
                       internal_server_error; upload_refused;
                       succeeded (artifact_of request env) ]) as Hin.
  { rewrite handlePost_unfold in H.
    destruct (validate request) as [[r|input]|e] eqn:Hv.
    - injection H as <- <-. apply validate_inl in Hv as [->| ->]; set_solver.
    - pose proof (proj1 (validate_accepts _ _) Hv) as (_ & Hjson & _).
      destruct (resolve_target env _ w) as [[[r|target]|e] w1] eqn:Hr.
      + injection H as <- <-. apply resolve_target_inl in Hr as [[->| ->] _]; set_solver.
      + apply resolve_target_id in Hr.
        apply submit_responses in H as [->|[->| ->]]; [set_solver|set_solver|].
        unfold artifact_of. rewrite Hjson, Hr. set_solver.
      + discriminate H.
    - discriminate H. }
  split; [exact Hin|].
  repeat (apply elem_of_cons in Hin as [->|Hin]);
    try (repeat split; cbn; first [discriminate | reflexivity | intros; congruence]).
  inversion Hin.
Qed.

Lemma handlePost_responses_witness :
  succeeded (js "u1") <> invalid_image_id.
Proof.
  refine (proj1 (proj2 (handlePost_responses (sample_submission None) cooperative
                          empty_world (succeeded (js "u1")) _ _))).
  vm_compute. reflexivity.
Defined.

(** ** What is written, and when *)

Lemma same_stores_trans w1 w2 w3 :
  same_stores w1 w2 -> same_stores w2 w3 -> same_stores w1 w3.
Proof. unfold same_stores. intros (-> & -> & ->) (-> & -> & ->). auto. Qed.

Lemma submit_early_failure request env input target w :
  same_stores w (snd (submit request env input target w))
  \/ (ok (upload_response env) = true
      /\ is_Some (data (upload_response env))
      /\ match target with
         | NewImage => insert_image_error env = false
         | ExistingImage _ _ _ =>
           delete_response_ok env = true /\ update_error env = false
         end).
Proof.
  unfold submit, persist_image, record_and_store. unfold_handler.
  destruct (upload_response env) as [[|] [uploaded|]]; cbn;
    try (left; repeat split; fail).
  destruct target as [|i d c];
    destruct (insert_image_error env), (delete_response_ok env),
      (update_error env); cbn;
    try (left; repeat split; fail); right; eauto.
Qed.

(** X7. Either a request changes none of the three stores, or the image
    host accepted the upload before the first write; for a request that
    names an artifact, the host had also deleted the previous preview and
    the UPDATE had gone through, and otherwise the INSERT had. A failure
    of any of these steps is answered without compensation because there
    is nothing to undo. *)
Theorem writes_follow_upload request env w :
  same_stores w (snd (handlePost request env w))
  \/ (ok (upload_response env) = true
      /\ is_Some (data (upload_response env))
      /\ forall json,
          body request = Some json ->
          match PostRequest.id json with
          | None => insert_image_error env = false
          | Some _ => delete_response_ok env = true /\ update_error env = false
          end).
Proof.
  rewrite handlePost_unfold.
  destruct (validate request) as [[r|input]|e] eqn:Hv;
    try (left; repeat split; fail).
  pose proof (proj1 (validate_accepts _ _) Hv) as (_ & Hjson & _).
  destruct (resolve_target env _ w) as [[[r|target]|e] w1] eqn:Hr.
  - left. apply resolve_target_inl in Hr as [_ Hs]. exact Hs.
  - pose proof (resolve_target_stores env (PostRequest.id (checked_json input)) w) as Hs.
    rewrite Hr in Hs. cbn in Hs.
    destruct (submit_early_failure request env input target w1) as [Hsame|(Hok & Hdata & Ht)].
    + left. eapply same_stores_trans; eassumption.
    + right. split; [exact Hok|]. split; [exact Hdata|].
      intros json Hb. rewrite Hb in Hjson. injection Hjson as ->.
      apply resolve_target_inr in Hr
        as [(-> & -> & _)|(i & r & -> & _ & _ & _ & -> & _)]; exact Ht.
  - left. pose proof (resolve_target_stores env (PostRequest.id (checked_json input)) w) as Hs.
    rewrite Hr in Hs. exact Hs.
Qed.

(** The outcome of [submit] once the artifact row has been written. *)
Lemma submit_after_write request env input target uploaded w :
  upload_response env = {| ok := true; data := Some uploaded |} ->
  match target with
  | NewImage => insert_image_error env = false
  | ExistingImage _ _ _ => delete_response_ok env = true /\ update_error env = false
  end ->
  submit request env input target w =
  record_and_store request env input target (target_id env target)
    (snd (persist_image request env input target uploaded
            (log (ImgurUpload (strip_data_uri (checked_bs input))) w))).
Proof.
  unfold submit, persist_image. unfold_handler. intros -> Ht.
  destruct target as [|i d c]; cbn.
  - rewrite Ht. reflexivity.
  - destruct Ht as [-> ->]. reflexivity.
Qed.

(** A creation that fails after its INSERT, and its compensation. *)
Lemma creation_rolled_back request env w input uploaded :
  validate request = Returned (inr input) ->
  PostRequest.id (checked_json input) = None ->
  upload_response env = {| ok := true; data := Some uploaded |} ->
  insert_image_error env = false ->
  insert_history_error env = true \/ put_outcome env <> PutStored ->
  rollback_images_error env = false ->
  rollback_histories_error env = false ->
  (forall r, r ∈ images w -> Images.id r <> image_uuid env) ->
  (forall h, h ∈ histories w -> Histories.image_id h <> image_uuid env) ->
  fst (handlePost request env w) = Returned internal_server_error
  /\ same_stores w (snd (handlePost request env w))
  /\ DeleteImage (image_uuid env) ∈ calls (snd (handlePost request env w)).
Proof.
  intros Hv Hid Hup Hii Hfail Hri Hrh Himg Hhist.
  rewrite handlePost_unfold, Hv, Hid, resolve_target_none.
  rewrite (submit_after_write _ _ _ NewImage uploaded _ Hup Hii).
  unfold persist_image, record_and_store. unfold_handler.
  rewrite Hii, Hri, Hrh. unfold same_stores.
  assert (filter (fun r => Images.id r <> image_uuid env)
                 (images w ++ [new_image_row request env input uploaded])
          = images w) as Himages.
  { rewrite filter_app, (filter_all _ _ Himg), filter_cons_False, filter_nil.
    - apply app_nil_r.
    - cbn. intros Hne. apply Hne. reflexivity. }
  assert (filter (fun h => Histories.image_id h <> image_uuid env) (histories w)
          = histories w) as Hhistories by (apply filter_all, Hhist).
  assert (filter (fun h => Histories.image_id h <> image_uuid env)
                 (histories w ++ [history_row request env input (image_uuid env)])
          = histories w) as Hhistories'.
  { rewrite filter_app, Hhistories, filter_cons_False, filter_nil.
    - apply app_nil_r.
    - cbn. intros Hne. apply Hne. reflexivity. }
  destruct (insert_history_error env) eqn:Hh.
  - cbn. rewrite Himages, Hhistories. repeat split.
    rewrite !elem_of_app, !list_elem_of_singleton. auto.
  - destruct Hfail as [Hfalse|Hput]; [discriminate Hfalse|].
    destruct (put_outcome env) eqn:Hp; [exfalso; apply Hput; reflexivity| |];
      cbn; rewrite Himages, Hhistories'; repeat split;
      rewrite !elem_of_app, !list_elem_of_singleton; auto.
Qed.

(** X8. A creation that fails after its INSERT is undone: when the
    history INSERT reports an error, or the bucket write yields [null] or
    throws, and both DELETE statements take effect, the answer is 500 and
    the three stores are as before the request, provided the generated id
    was not in use. *)
Theorem failed_creation_compensated request env w input uploaded :
  validate request = Returned (inr input) ->
  PostRequest.id (checked_json input) = None ->
  upload_response env = {| ok := true; data := Some uploaded |} ->
  insert_image_error env = false ->
  insert_history_error env = true \/ put_outcome env <> PutStored ->
  rollback_images_error env = false ->
  rollback_histories_error env = false ->
  (forall r, r ∈ images w -> Images.id r <> image_uuid env) ->
  (forall h, h ∈ histories w -> Histories.image_id h <> image_uuid env) ->
  fst (handlePost request env w) = Returned internal_server_error
  /\ same_stores w (snd (handlePost request env w))
  /\ DeleteImage (image_uuid env) ∈ calls (snd (handlePost request env w)).
Proof. apply creation_rolled_back. Qed.

Lemma failed_creation_compensated_witness :
  same_stores (sample_world 3)
    (snd (handlePost (sample_submission None)
            (sample_env {| ok := true; data := Some sample_upload |} false PutThrows)
            (sample_world 3))).
Proof.
  refine (proj1 (proj2 (failed_creation_compensated (sample_submission None)
            (sample_env {| ok := true; data := Some sample_upload |} false PutThrows)
            (sample_world 3) (sample_checked None) sample_upload
            eq_refl eq_refl eq_refl eq_refl _ eq_refl eq_refl _ _))).
  - right. discriminate.
  - intros r Hr. apply list_elem_of_In in Hr. cbn in Hr.
    destruct Hr as [<-|[<-|[]]]; vm_compute; discriminate.
  - intros h Hh. apply list_elem_of_In in Hh. cbn in Hh.
    destruct Hh as [<-|[]]; vm_compute; discriminate.
Defined.

(** X9. A revision whose history INSERT reports an error is answered 500
    and is not undone: the row keeps the new imgur id, time and count, no
    history row is added, nothing is put in the bucket, and no DELETE is
    issued. *)
Theorem history_failure_keeps_revision request env w input i r uploaded :
  validate request = Returned (inr input) ->
  PostRequest.id (checked_json input) = Some i ->
  select_error env = false ->
  find (has_id i) (images w) = Some r ->
  Images.count r < 10 ->
  upload_response env = {| ok := true; data := Some uploaded |} ->
  delete_response_ok env = true ->
  update_error env = false ->
  insert_history_error env = true ->
  let w' := snd (handlePost request env w) in
  fst (handlePost request env w) = Returned internal_server_error
  /\ images w' =
     revise_where i (imgur_id uploaded) (image_time env) (Images.count r + 1)
       (images w)
  /\ histories w' = histories w
  /\ bucket w' = bucket w
  /\ calls w' =
     calls w ++ [ SelectImage i;
                  ImgurUpload (strip_data_uri (checked_bs input));
                  ImgurDelete (Images.deleteHash r);
                  UpdateImage (imgur_id uploaded) (image_time env)
                    (Images.count r + 1) i;
                  InsertHistory (history_row request env input i) ].
Proof.
  intros Hv Hid Hsel Hfind Hten Hup Hdel Hupd Hh w'. subst w'.
  rewrite handlePost_unfold, Hv, Hid, resolve_target_some, Hsel, Hfind.
  rewrite bool_decide_eq_false_2 by lia.
  rewrite (submit_after_write _ _ _ (ExistingImage _ _ _) uploaded _ Hup (conj Hdel Hupd)).
  unfold persist_image, record_and_store. unfold_handler.
  rewrite Hdel, Hupd, Hh. cbn. rewrite <- !app_assoc. repeat split.
Qed.

Lemma history_failure_keeps_revision_witness :
  map Images.count
    (images (snd (handlePost (sample_submission (Some (js "a")))
                    (sample_env {| ok := true; data := Some sample_upload |} true PutStored)
                    (sample_world 3))))
  = [4; 2].
Proof.
  rewrite (proj1 (proj2 (history_failure_keeps_revision
             (sample_submission (Some (js "a")))
             (sample_env {| ok := true; data := Some sample_upload |} true PutStored)
             (sample_world 3) (sample_checked (Some (js "a"))) (js "a")
             (stored_image 3) sample_upload
             eq_refl eq_refl eq_refl eq_refl ltac:(cbn; lia) eq_refl eq_refl
             eq_refl eq_refl))).
  reflexivity.
Defined.

(** ** What an accepted submission leaves behind *)

(** X10. What an accepted submission records: one history row is
    appended, with the generated history id, the author of the request or
    the placeholder, the address header, the artifact id and the time;
    and a creation appends one [Images] row with the same author and
    address, the description of the request and the id and delete hash
    the image host returned. *)
Theorem accepted_submission_records request env w response w' json :
  handlePost request env w = (Returned response, w') ->
  success response = true ->
  body request = Some json ->
  let author := default nanashi (PostRequest.author json) in
  histories w' =
    histories w ++
      [ {| Histories.id := history_uuid env;
           Histories.author := author;
           Histories.ip := cf_connecting_ip request;
           Histories.image_id := artifact_of request env;
           Histories.created_at := history_time env |} ]
  /\ (PostRequest.id json = None ->
      exists uploaded,
        upload_response env = {| ok := true; data := Some uploaded |}
        /\ images w' =
           images w ++
             [ {| Images.id := image_uuid env;
                  Images.author := author;
                  Images.ip := cf_connecting_ip request;
                  Images.description := PostRequest.description json;
                  Images.imgurId := imgur_id uploaded;
                  Images.count := 1;
                  Images.deleteHash := deletehash uploaded;
                  Images.created_at := image_time env |} ]).
Proof.
  intros H Hs Hb author. subst author. unfold artifact_of. rewrite Hb.
  destruct (PostRequest.id json) as [i|] eqn:Hid.
  - destruct (accepted_revision _ _ _ _ _ _ _ H Hs Hb Hid)
      as (input & uploaded & r & Hv & _ & _ & _ & _ & _ & -> & _).
    pose proof (proj1 (validate_accepts _ _) Hv) as (_ & Hjson & _ & _ & _ & _ & Ha & _).
    rewrite Hb in Hjson. injection Hjson as ->.
    split; [|discriminate]. unfold history_row. rewrite Ha. reflexivity.
  - destruct (accepted_creation _ _ _ _ _ _ H Hs Hb Hid)
      as (input & uploaded & Hv & Hup & _ & -> & -> & _).
    pose proof (proj1 (validate_accepts _ _) Hv) as (_ & Hjson & _ & _ & _ & _ & Ha & _).
    rewrite Hb in Hjson. injection Hjson as ->.
    unfold history_row, new_image_row. rewrite Ha. split; [reflexivity|].
    intros _. exists uploaded. split; [exact Hup|reflexivity].
Qed.

Lemma accepted_submission_records_witness :
  map Histories.author
    (histories (snd (handlePost (sample_submission None) cooperative empty_world)))
  = [nanashi].
Proof.
  rewrite (proj1 (accepted_submission_records (sample_submission None) cooperative
             empty_world (succeeded (js "u1"))
             (snd (handlePost (sample_submission None) cooperative empty_world))
             (sample_body None (Some sample_payload) (Some sample_bs))
             eq_refl eq_refl eq_refl)).
  reflexivity.
Defined.

Lemma blob_of_lookup (payload : list Z) (k : nat) :
  blob_of payload !! k = (fun n => n mod 256) <$> payload !! (4 + k)%nat.
Proof.
  unfold blob_of. rewrite <- lookup_drop.
  generalize (drop 4 payload). intros l. revert k.
  induction l as [|x l IH]; intros [|k]; cbn; auto.
Qed.

(** X11. What an accepted submission stores in the bucket: under the key
    made of the artifact id and [.bin], the payload without its four
    header bytes, each element reduced to a byte; no other key changes. *)
Theorem accepted_blob_stored request env w response w' json payload :
  handlePost request env w = (Returned response, w') ->
  success response = true ->
  body request = Some json ->
  PostRequest.payload json = Some payload ->
  let key := artifact_of request env ++ js ".bin" in
  bucket w' !! key = Some (blob_of payload)
  /\ (forall k, k <> key -> bucket w' !! k = bucket w !! k)
  /\ length (blob_of payload) = (length payload - 4)%nat
  /\ (forall (k : nat),
        blob_of payload !! k = (fun n => n mod 256) <$> payload !! (4 + k)%nat)
  /\ Forall (fun b => 0 <= b < 256) (blob_of payload).
Proof.
  intros H Hs Hb Hp key. subst key.
  destruct (handlePost_success _ _ _ _ _ H Hs)
    as (input & target & uploaded & Hv & Ht & _ & _ & _ & _ & ->).
  pose proof (proj1 (validate_accepts _ _) Hv) as (_ & Hjson & _ & _ & Hpayload & _).
  rewrite Hb in Hjson. injection Hjson as Hjson. subst json.
  rewrite Hp in Hpayload. injection Hpayload as ->.
  assert (target_id env target = artifact_of request env) as ->.
  { unfold artifact_of. rewrite Hb.
    destruct (resolve_target env _ w) as [c w1] eqn:Hr. cbn in Ht. subst c.
    apply (resolve_target_id _ _ _ _ _ Hr). }
  split; [apply lookup_insert_eq|].
  split; [intros k Hk; apply lookup_insert_ne; congruence|].
  split; [unfold blob_of; rewrite length_map, length_drop; reflexivity|].
  split; [apply blob_of_lookup|].
  unfold blob_of. apply Forall_forall. intros b Hin.
  apply list_elem_of_In, in_map_iff in Hin as (n & <- & _).
  apply Z.mod_pos_bound. lia.
Qed.

Lemma accepted_blob_stored_witness :
  bucket (snd (handlePost (sample_submission None) cooperative empty_world))
    !! (js "u1" ++ js ".bin")
  = Some [7; 8; 9].
Proof.
  exact (proj1 (accepted_blob_stored (sample_submission None) cooperative
                  empty_world (succeeded (js "u1"))
                  (snd (handlePost (sample_submission None) cooperative empty_world))
                  (sample_body None (Some sample_payload) (Some sample_bs))
                  sample_payload eq_refl eq_refl eq_refl eq_refl)).
Defined.

Lemma submit_success_calls request env input target w response w' :
  submit request env input target w = (Returned response, w') ->
  success response = true ->
  exists uploaded,
    upload_response env = {| ok := true; data := Some uploaded |}
    /\ calls w' =
       calls w
       ++ ImgurUpload (strip_data_uri (checked_bs input))
       :: match target with
          | NewImage => [InsertImage (new_image_row request env input uploaded)]
          | ExistingImage i d c =>
            [ImgurDelete d;
             UpdateImage (imgur_id uploaded) (image_time env) (c + 1) i]
          end
       ++ [ InsertHistory (history_row request env input (target_id env target));
            BucketPut (target_id env target ++ js ".bin")
              (blob_of (checked_payload input)) ].
Proof.
  unfold submit, persist_image, record_and_store. unfold_handler.
  intros H Hs.
  destruct (upload_response env) as [[|] [uploaded|]] eqn:Hup; cbn in H;
    try (injection H as <- <-; discriminate Hs); try discriminate H.
  exists uploaded. split; [reflexivity|].
  destruct target as [|i d c]; case_env env; cbn in H;
    try (injection H as <- <-; try discriminate Hs; cbn;
         rewrite <- !app_assoc; reflexivity).
Qed.

(** X12. The calls of an accepted submission, in order. A creation
    uploads, inserts the row, inserts the history row and puts the
    object. A revision looks the row up, uploads the new preview, deletes
    the previous one with the delete hash stored in that row, updates the
    row, inserts the history row and puts the object. *)
Theorem accepted_submission_calls request env w response w' json :
  handlePost request env w = (Returned response, w') ->
  success response = true ->
  body request = Some json ->
  exists input uploaded,
    validate request = Returned (inr input)
    /\ upload_response env = {| ok := true; data := Some uploaded |}
    /\ match PostRequest.id json with
       | None =>
         calls w' =
         calls w ++
           [ ImgurUpload (strip_data_uri (checked_bs input));
             InsertImage (new_image_row request env input uploaded);
             InsertHistory (history_row request env input (image_uuid env));
             BucketPut (image_uuid env ++ js ".bin")
               (blob_of (checked_payload input)) ]
       | Some i =>
         exists r,
           find (has_id i) (images w) = Some r
           /\ calls w' =
              calls w ++
                [ SelectImage i;
                  ImgurUpload (strip_data_uri (checked_bs input));
                  ImgurDelete (Images.deleteHash r);
                  UpdateImage (imgur_id uploaded) (image_time env)
                    (Images.count r + 1) i;
                  InsertHistory (history_row request env input i);
                  BucketPut (i ++ js ".bin") (blob_of (checked_payload input)) ]
       end.
Proof.
  intros H Hs Hb. rewrite handlePost_unfold in H.
  destruct (validate request) as [[r|input]|e] eqn:Hv.
  - injection H as <- <-. apply validate_inl_failure in Hv. congruence.
  - pose proof (proj1 (validate_accepts _ _) Hv) as (_ & Hjson & _).
    rewrite Hb in Hjson. injection Hjson as Hjson. subst json.
    destruct (resolve_target env _ w) as [[[r|target]|e] w1] eqn:Hr.
    + injection H as <- <-.
      apply resolve_target_inl in Hr as [[->| ->] _]; discriminate Hs.
    + destruct (submit_success_calls _ _ _ _ _ _ _ H Hs) as (uploaded & Hup & Hcalls).
      exists input, uploaded. split; [reflexivity|]. split; [exact Hup|].
      apply resolve_target_inr in Hr
        as [(-> & -> & ->)|(i & r & -> & _ & Hfind & _ & -> & ->)].
      * exact Hcalls.
      * exists r. split; [exact Hfind|]. rewrite Hcalls. cbn.
        rewrite <- app_assoc. reflexivity.
    + discriminate H.
  - discriminate H.
Qed.

Lemma accepted_submission_calls_witness :
  exists input uploaded,
    validate (sample_submission None) = Returned (inr input)
    /\ upload_response cooperative = {| ok := true; data := Some uploaded |}
    /\ calls (snd (handlePost (sample_submission None) cooperative empty_world)) =
       calls empty_world ++
         [ ImgurUpload (strip_data_uri (checked_bs input));
           InsertImage (new_image_row (sample_submission None) cooperative input uploaded);
           InsertHistory (history_row (sample_submission None) cooperative input
                            (image_uuid cooperative));
           BucketPut (image_uuid cooperative ++ js ".bin")
             (blob_of (checked_payload input)) ].
Proof.
  exact (accepted_submission_calls (sample_submission None) cooperative empty_world
           (succeeded (js "u1"))
           (snd (handlePost (sample_submission None) cooperative empty_world))
           (sample_body None (Some sample_payload) (Some sample_bs))
           eq_refl eq_refl eq_refl).
Defined.

(** ** The rows a request leaves alone *)

Lemma frame_insert i rows r :
  Images.id r = i ->
  filter (fun x => Images.id x <> i) (rows ++ [r])
  = filter (fun x => Images.id x <> i) rows.
Proof.
  intros Hr. rewrite filter_app, filter_cons_False, filter_nil by tauto.
  apply app_nil_r.
Qed.

Lemma frame_insert_history i rows h :
  Histories.image_id h = i ->
  filter (fun x => Histories.image_id x <> i) (rows ++ [h])
  = filter (fun x => Histories.image_id x <> i) rows.
Proof.
  intros Hh. rewrite filter_app, filter_cons_False, filter_nil by tauto.
  apply app_nil_r.
Qed.

Lemma frame_revise i imgurId created_at count rows :
  filter (fun x => Images.id x <> i) (revise_where i imgurId created_at count rows)
  = filter (fun x => Images.id x <> i) rows.
Proof.
  induction rows as [|r rows IH]; [reflexivity|].
  change (revise_where i imgurId created_at count (r :: rows))
    with ((if has_id i r then revise imgurId created_at count r else r)
          :: revise_where i imgurId created_at count rows).
  unfold has_id. case_bool_decide as Hr.
  - rewrite !filter_cons_False by (cbn; tauto). exact IH.
  - rewrite !filter_cons_True by exact Hr. f_equal. exact IH.
Qed.

Ltac fold_revise_where :=
  repeat match goal with
    | |- context [map (fun r => if has_id ?i r then revise ?g ?t ?c r else r) ?l] =>
      change (map (fun r => if has_id i r then revise g t c r else r) l)
        with (revise_where i g t c l)
    end.

Ltac solve_frame :=
  fold_revise_where;
  repeat first
    [ reflexivity
    | rewrite filter_twice
    | rewrite frame_insert by reflexivity
    | rewrite frame_insert_history by reflexivity
    | rewrite frame_revise ].

Lemma submit_frame request env input target w :
  let t := target_id env target in
  let w' := snd (submit request env input target w) in
  filter (fun r => Images.id r <> t) (images w')
  = filter (fun r => Images.id r <> t) (images w)
  /\ filter (fun h => Histories.image_id h <> t) (histories w')
     = filter (fun h => Histories.image_id h <> t) (histories w)
  /\ forall k, k <> t ++ js ".bin" -> bucket w' !! k = bucket w !! k.
Proof.
  unfold submit, persist_image, record_and_store. unfold_handler.
  destruct (upload_response env) as [[|] [uploaded|]]; cbn; auto.
  destruct target as [|i d c]; case_env env; cbn;
    (split; [solve_frame|split; [solve_frame|]]);
    intros k Hk; try reflexivity; apply lookup_insert_ne; congruence.
Qed.

(** X13. Whatever the outcome (success, failure with or without
    compensation, or a fault), a request leaves every [Images] row of
    another artifact, every [Histories] row of another artifact and every
    other bucket key exactly as they were, in the same order. *)
Theorem handlePost_frame request env w :
  let t := artifact_of request env in
  let w' := snd (handlePost request env w) in
  filter (fun r => Images.id r <> t) (images w')
  = filter (fun r => Images.id r <> t) (images w)
  /\ filter (fun h => Histories.image_id h <> t) (histories w')
     = filter (fun h => Histories.image_id h <> t) (histories w)
  /\ forall k, k <> t ++ js ".bin" -> bucket w' !! k = bucket w !! k.
Proof.
  cbv zeta. rewrite handlePost_unfold.
  destruct (validate request) as [[r|input]|e] eqn:Hv; auto.
  pose proof (proj1 (validate_accepts _ _) Hv) as (_ & Hjson & _).
  pose proof (resolve_target_stores env (PostRequest.id (checked_json input)) w)
    as (Hi & Hh & Hb).
  destruct (resolve_target env _ w) as [[[r|target]|e] w1] eqn:Hr; cbn in *;
    try (rewrite Hi, Hh, Hb; auto; fail).
  apply resolve_target_id in Hr.
  assert (artifact_of request env = target_id env target) as ->
    by (unfold artifact_of; rewrite Hjson, Hr; reflexivity).
  rewrite <- Hi, <- Hh, <- Hb. apply submit_frame.
Qed.

(** ** The read endpoints *)

#[global] Instance newer_first_total : Total newer_first.
Proof. intros a b. unfold newer_first. lia. Qed.

#[global] Instance newer_first_trans : Transitive newer_first.
Proof. intros a b c. unfold newer_first. lia. Qed.

#[global] Instance older_first_total : Total older_first.
Proof. intros a b. unfold older_first. lia. Qed.

#[global] Instance older_first_trans : Transitive older_first.
Proof. intros a b c. unfold older_first. lia. Qed.

(** X14. The listing of [handleImages]: at most 50 rows of the table,
    newest first, and no row left out is newer than a listed one; a
    table of at most 50 rows is listed whole. *)
Theorem handleImages_listing w :
  exists rows,
    handleImages false w
    = Returned (answer "images" (JArr (map (fun r => JObj (image_object r)) rows)))
    /\ length rows = (50 `min` length (images w))%nat
    /\ StronglySorted newer_first rows
    /\ (forall r, r ∈ rows -> r ∈ images w)
    /\ (forall r x,
          r ∈ images w -> r ∉ rows -> x ∈ rows ->
          Images.created_at r <= Images.created_at x)
    /\ ((length (images w) <= 50)%nat -> rows ≡ₚ images w).
Proof.
  exists (recent_images w). unfold recent_images.
  pose proof (merge_sort_Permutation newer_first (images w)) as Hperm.
  pose proof (StronglySorted_merge_sort newer_first (images w)) as Hsorted.
  set (sorted := merge_sort newer_first (images w)) in *.
  split; [reflexivity|].
  split; [rewrite length_take, Hperm; reflexivity|].
  rewrite <- (take_drop 50 sorted) in Hsorted.
  split; [eapply StronglySorted_app_1_l, Hsorted|].
  split.
  { intros r Hr. rewrite <- Hperm. rewrite <- (take_drop 50 sorted).
    apply elem_of_app. left. exact Hr. }
  split.
  { intros r x Hr Hout Hx.
    rewrite <- Hperm, <- (take_drop 50 sorted) in Hr.
    apply elem_of_app in Hr as [Hr|Hr]; [contradiction|].
    apply (StronglySorted_app_1_elem_of _ _ _ _ _ Hsorted Hx Hr). }
  intros Hlen. rewrite take_ge; [exact Hperm|].
  rewrite Hperm. exact Hlen.
Qed.

(** X15. The listing of [handleHistories] for an id: 404 when no history
    row refers to the id (so also for an unknown id), and otherwise
    status 200 with exactly the rows that refer to it, oldest first. *)
Theorem handleHistories_listing incoming i w :
  search_image_id incoming = Some i ->
  let matching := filter (fun h => Histories.image_id h = i) (histories w) in
  (matching = [] ->
   handleHistories incoming false w = Returned (refusal 404 "no such image_id" cors))
  /\ (matching <> [] ->
      exists rows,
        handleHistories incoming false w
        = Returned (answer "result" (JArr (map (fun h => JObj (history_object h)) rows)))
        /\ rows ≡ₚ matching
        /\ StronglySorted older_first rows).
Proof.
  intros Hi matching. unfold handleHistories. rewrite Hi. unfold histories_of.
  fold matching.
  pose proof (merge_sort_Permutation older_first matching) as Hperm.
  split.
  - intros Hnil. rewrite Hnil. reflexivity.
  - intros Hne. exists (merge_sort older_first matching).
    split; [|split; [exact Hperm|apply StronglySorted_merge_sort; apply _]].
    rewrite bool_decide_eq_false_2; [reflexivity|].
    rewrite Hperm. destruct matching; [contradiction|discriminate].
Qed.

Lemma handleHistories_listing_witness :
  handleHistories {| pathname := "/api/oekaki/histories";
                     search_image_id := Some (js "zz");
                     request := sample_submission None |}
    false (sample_world 3)
  = Returned (refusal 404 "no such image_id" cors).
Proof.
  exact (proj1 (handleHistories_listing
                  {| pathname := "/api/oekaki/histories";
                     search_image_id := Some (js "zz");
                     request := sample_submission None |}
                  (js "zz") (sample_world 3) eq_refl) eq_refl).
Defined.

(** X16. [handleImage] never answers 404. Its answers have status 200,
    400 or 500, and with a working lookup it throws exactly when no row
    has the id or the bucket has no object for it: the null test of line
    469 comes after the read of [image.error], and the empty array that
    stands in for a missing object has no [arrayBuffer]. *)
Theorem handleImage_never_404 incoming error w :
  (forall reply,
      handleImage incoming error w = Returned reply ->
      reply_status reply = 200 \/ reply_status reply = 400
      \/ reply_status reply = 500)
  /\ (forall i,
        search_image_id incoming = Some i ->
        error = false ->
        (handleImage incoming error w = Thrown TypeError
         <-> find (has_id i) (images w) = None
             \/ bucket w !! (i ++ js ".bin") = None)).
Proof.
  unfold handleImage, first_image. split.
  - intros reply H.
    destruct (search_image_id incoming) as [i|]; [|injection H as <-; auto].
    destruct error; [injection H as <-; auto|].
    destruct (find (has_id i) (images w)) as [r|]; [|discriminate H].
    cbn in H. destruct (bucket w !! _); [|discriminate H].
    injection H as <-. auto.
  - intros i -> ->.
    destruct (find (has_id i) (images w)) as [r|]; cbn; [|tauto].
    destruct (bucket w !! _); split; intros H; try discriminate H; auto.
    destruct H as [H|H]; discriminate H.
Qed.

Lemma handleImage_never_404_witness :
  handleImage {| pathname := "/api/oekaki/image";
                 search_image_id := Some (js "a");
                 request := sample_submission None |}
    false (sample_world 3)
  = Thrown TypeError.
Proof.
  apply (proj2 (handleImage_never_404
                  {| pathname := "/api/oekaki/image";
                     search_image_id := Some (js "a");
                     request := sample_submission None |}
                  false (sample_world 3)) (js "a") eq_refl eq_refl).
  right. reflexivity.
Defined.

(** X17. What [handleImage] answers when the row and the object exist:
    the stored bytes as [payload], then the columns of the row without
    [deleteHash], then [type] "bin". The row as selected does carry
    [deleteHash]; the answer has no such member. *)
Theorem handleImage_result incoming i w r bytes :
  search_image_id incoming = Some i ->
  find (has_id i) (images w) = Some r ->
  bucket w !! (i ++ js ".bin") = Some bytes ->
  let members :=
    [ ("payload", JArr (map JNum bytes));
      ("id", JStr (Images.id r));
      ("author", JStr (Images.author r));
      ("ip", json_of_text (Images.ip r));
      ("description", json_of_text (Images.description r));
      ("imgurId", JStr (Images.imgurId r));
      ("count", JNum (Images.count r));
      ("created_at", JNum (Images.created_at r));
      ("type", JStr (js "bin")) ]%string in
  handleImage incoming false w = Returned (answer "result" (JObj members))
  /\ obj_get "deleteHash" members = None
  /\ obj_get "deleteHash" (image_object r) = Some (JStr (Images.deleteHash r)).
Proof.
  intros Hi Hfind Hget members. subst members.
  unfold handleImage, first_image. rewrite Hi, Hfind. cbn. rewrite Hget.
  split; [reflexivity|]. split; reflexivity.
Qed.

Lemma handleImage_result_witness :
  obj_get "deleteHash"
    [ ("payload", JArr (map JNum [1; 2]));
      ("id", JStr (Images.id other_image));
      ("author", JStr (Images.author other_image));
      ("ip", json_of_text (Images.ip other_image));
      ("description", json_of_text (Images.description other_image));
      ("imgurId", JStr (Images.imgurId other_image));
      ("count", JNum (Images.count other_image));
      ("created_at", JNum (Images.created_at other_image));
      ("type", JStr (js "bin")) ]%string
  = None.
Proof.
  exact (proj1 (proj2 (handleImage_result
           {| pathname := "/api/oekaki/image";
              search_image_id := Some (js "b");
              request := sample_submission None |}
           (js "b")
           (set_bucket (<[js "b" ++ js ".bin" := [1; 2]]> ∅) (sample_world 3))
           other_image [1; 2] eq_refl eq_refl eq_refl))).
Defined.

(** ** Reading back what was posted *)

Lemma find_has_id_snoc i rows r :
  Images.id r = i ->
  exists x, find (has_id i) (rows ++ [r]) = Some x /\ Images.id x = i.
Proof.
  intros Hr. induction rows as [|y rows IH]; cbn.
  - unfold has_id. rewrite bool_decide_eq_true_2 by exact Hr. eauto.
  - destruct (has_id i y) eqn:Hy; [|exact IH].
    exists y. split; [reflexivity|].
    unfold has_id in Hy. apply bool_decide_eq_true in Hy. exact Hy.
Qed.

(** The state an accepted submission leaves for its artifact. *)
Lemma accepted_state request env w response w' :
  handlePost request env w = (Returned response, w') ->
  success response = true ->
  let t := artifact_of request env in
  exists input r,
    validate request = Returned (inr input)
    /\ result response = Some t
    /\ find (has_id t) (images w') = Some r
    /\ Images.id r = t
    /\ bucket w' !! (t ++ js ".bin") = Some (blob_of (checked_payload input))
    /\ histories w' = histories w ++ [history_row request env input t].
Proof.
  intros H Hs t. subst t.
  destruct (handlePost_success _ _ _ _ _ H Hs)
    as (input & target & uploaded & Hv & Ht & _ & -> & Hi & Hh & Hb).
  pose proof (proj1 (validate_accepts _ _) Hv) as (_ & Hjson & _).
  destruct (resolve_target env _ w) as [c w1] eqn:Hr. cbn in Ht. subst c.
  assert (artifact_of request env = target_id env target) as ->.
  { unfold artifact_of. rewrite Hjson. symmetry.
    apply (resolve_target_id _ _ _ _ _ Hr). }
  assert (exists r, find (has_id (target_id env target)) (images w') = Some r
                    /\ Images.id r = target_id env target) as (r & Hfind & Hid).
  { rewrite Hi.
    apply resolve_target_inr in Hr
      as [(_ & -> & _)|(i & r & _ & _ & Hfind & _ & -> & _)]; cbn.
    - apply find_has_id_snoc. reflexivity.
    - eexists. split; [apply revise_where_find, Hfind|]. cbn.
      apply find_has_id in Hfind. tauto. }
  exists input, r. rewrite Hb, Hh.
  repeat split; auto. apply lookup_insert_eq.
Qed.

(** X18. Posting and reading back: after an accepted submission,
    [handleImage] for the id in the answer succeeds, and its [payload] is
    the posted payload without the four header bytes, byte by byte; [id]
    is that id and [type] is "bin". *)
Theorem posted_image_readable request env w response w' json payload incoming :
  handlePost request env w = (Returned response, w') ->
  success response = true ->
  body request = Some json ->
  PostRequest.payload json = Some payload ->
  search_image_id incoming = result response ->
  exists members,
    handleImage incoming false w' = Returned (answer "result" (JObj members))
    /\ obj_get "payload" members = Some (JArr (map JNum (blob_of payload)))
    /\ obj_get "id" members = Some (JStr (artifact_of request env))
    /\ obj_get "type" members = Some (JStr (js "bin")).
Proof.
  intros H Hs Hb Hp Hsearch.
  destruct (accepted_state _ _ _ _ _ H Hs)
    as (input & r & Hv & Hres & Hfind & Hid & Hget & _).
  pose proof (proj1 (validate_accepts _ _) Hv) as (_ & Hjson & _ & _ & Hpayload & _).
  rewrite Hb in Hjson. injection Hjson as Hjson. subst json.
  rewrite Hp in Hpayload. injection Hpayload as Hpayload. subst payload.
  rewrite Hres in Hsearch.
  unfold handleImage, first_image. rewrite Hsearch, Hfind. cbn. rewrite Hget.
  eexists. split; [reflexivity|]. rewrite Hid. repeat split.
Qed.

Lemma posted_image_readable_witness :
  exists members,
    handleImage {| pathname := "/api/oekaki/image";
                   search_image_id := Some (js "u1");
                   request := sample_submission None |}
      false (snd (handlePost (sample_submission None) cooperative empty_world))
    = Returned (answer "result" (JObj members))
    /\ obj_get "payload" members = Some (JArr (map JNum (blob_of sample_payload)))
    /\ obj_get "id" members
       = Some (JStr (artifact_of (sample_submission None) cooperative))
    /\ obj_get "type" members = Some (JStr (js "bin")).
Proof.
  exact (posted_image_readable (sample_submission None) cooperative empty_world
           (succeeded (js "u1"))
           (snd (handlePost (sample_submission None) cooperative empty_world))
           (sample_body None (Some sample_payload) (Some sample_bs))
           sample_payload
           {| pathname := "/api/oekaki/image";
              search_image_id := Some (js "u1");
              request := sample_submission None |}
           eq_refl eq_refl eq_refl eq_refl eq_refl).
Defined.

(** X19. After an accepted submission, [handleHistories] for the id in
    the answer has status 200, lists only rows of that artifact, and the
    row this submission appended is among them. *)
Theorem posted_history_listed request env w response w' incoming :
  handlePost request env w = (Returned response, w') ->
  success response = true ->
  search_image_id incoming = result response ->
  exists input rows,
    validate request = Returned (inr input)
    /\ handleHistories incoming false w'
       = Returned (answer "result" (JArr (map (fun h => JObj (history_object h)) rows)))
    /\ history_row request env input (artifact_of request env) ∈ rows
    /\ forall h, h ∈ rows -> Histories.image_id h = artifact_of request env.
Proof.
  intros H Hs Hsearch.
  destruct (accepted_state _ _ _ _ _ H Hs)
    as (input & r & Hv & Hres & _ & _ & _ & Hh).
  rewrite Hres in Hsearch.
  set (t := artifact_of request env) in *.
  pose proof (merge_sort_Permutation older_first
                (filter (fun h => Histories.image_id h = t) (histories w'))) as Hperm.
  assert (history_row request env input t ∈ histories_of t w') as Hin.
  { unfold histories_of. rewrite Hperm, Hh.
    apply list_elem_of_filter. split; [reflexivity|].
    apply elem_of_app. right. apply list_elem_of_singleton. reflexivity. }
  exists input, (histories_of t w'). split; [exact Hv|].
  split; [|split; [exact Hin|]].
  - unfold handleHistories. rewrite Hsearch. cbn.
    rewrite bool_decide_eq_false_2; [reflexivity|].
    intros Hlen. destruct (histories_of t w'); [inversion Hin|discriminate Hlen].
  - intros h Hrow. unfold histories_of in Hrow. rewrite Hperm in Hrow.
    apply list_elem_of_filter in Hrow. tauto.
Qed.

Lemma posted_history_listed_witness :
  exists input rows,
    validate (sample_submission (Some (js "a"))) = Returned (inr input)
    /\ handleHistories {| pathname := "/api/oekaki/histories";
                          search_image_id := Some (js "a");
                          request := sample_submission None |}
         false
         (snd (handlePost (sample_submission (Some (js "a"))) cooperative
                 (sample_world 3)))
       = Returned (answer "result" (JArr (map (fun h => JObj (history_object h)) rows)))
    /\ history_row (sample_submission (Some (js "a"))) cooperative input
         (artifact_of (sample_submission (Some (js "a"))) cooperative) ∈ rows
    /\ forall h, h ∈ rows ->
         Histories.image_id h
         = artifact_of (sample_submission (Some (js "a"))) cooperative.
Proof.
  exact (posted_history_listed (sample_submission (Some (js "a"))) cooperative
           (sample_world 3) (succeeded (js "a"))
           (snd (handlePost (sample_submission (Some (js "a"))) cooperative
                   (sample_world 3)))
           {| pathname := "/api/oekaki/histories";
              search_image_id := Some (js "a");
              request := sample_submission None |}
           eq_refl eq_refl eq_refl).
Defined.

(** X20. Reading after a compensated creation: under the conditions of
    X8, [handleHistories] for the generated id answers 404, and
    [handleImage] for it throws, since it reads [image.error] of the
    [null] that [first()] yields. *)
Theorem compensated_creation_unreadable request env w input uploaded incoming :
  validate request = Returned (inr input) ->
  PostRequest.id (checked_json input) = None ->
  upload_response env = {| ok := true; data := Some uploaded |} ->
  insert_image_error env = false ->
  insert_history_error env = true \/ put_outcome env <> PutStored ->
  rollback_images_error env = false ->
  rollback_histories_error env = false ->
  (forall r, r ∈ images w -> Images.id r <> image_uuid env) ->
  (forall h, h ∈ histories w -> Histories.image_id h <> image_uuid env) ->
  search_image_id incoming = Some (image_uuid env) ->
  handleHistories incoming false (snd (handlePost request env w))
  = Returned (refusal 404 "no such image_id" cors)
  /\ handleImage incoming false (snd (handlePost request env w)) = Thrown TypeError.
Proof.
  intros Hv Hid Hup Hii Hfail Hri Hrh Himg Hhist Hsearch.
  destruct (creation_rolled_back _ _ _ _ _ Hv Hid Hup Hii Hfail Hri Hrh Himg Hhist)
    as (_ & (Hi & Hh & _) & _).
  split.
  - unfold handleHistories, histories_of. rewrite Hsearch, Hh.
    rewrite (filter_none _ _ Hhist). reflexivity.
  - unfold handleImage, first_image. rewrite Hsearch, Hi.
    destruct (find (has_id (image_uuid env)) (images w)) as [r|] eqn:Hfind;
      [|reflexivity].
    apply find_has_id in Hfind as [Hin Hr]. exfalso. exact (Himg r Hin Hr).
Qed.

Lemma compensated_creation_unreadable_witness :
  handleImage {| pathname := "/api/oekaki/image";
                 search_image_id := Some (js "u1");
                 request := sample_submission None |}
    false
    (snd (handlePost (sample_submission None)
            (sample_env {| ok := true; data := Some sample_upload |} true PutStored)
            (sample_world 3)))
  = Thrown TypeError.
Proof.
  refine (proj2 (compensated_creation_unreadable (sample_submission None)
            (sample_env {| ok := true; data := Some sample_upload |} true PutStored)
            (sample_world 3) (sample_checked None) sample_upload
            {| pathname := "/api/oekaki/image";
               search_image_id := Some (js "u1");
               request := sample_submission None |}
            eq_refl eq_refl eq_refl eq_refl _ eq_refl eq_refl _ _ eq_refl)).
  - left. reflexivity.
  - intros r Hr. apply list_elem_of_In in Hr. cbn in Hr.
    destruct Hr as [<-|[<-|[]]]; vm_compute; discriminate.
  - intros h Hh. apply list_elem_of_In in Hh. cbn in Hh.
    destruct Hh as [<-|[]]; vm_compute; discriminate.
Defined.

(** ** The router *)

Lemma reading_stores (made : list Call) (w : World) :
  let w' := fold_left (fun w' c => log c w') made w in
  same_stores w w' /\ calls w' = calls w ++ made.
Proof.
  revert w. induction made as [|c made IH]; intros w; cbn.
  - split; [repeat split|]. symmetry. apply app_nil_r.
  - destruct (IH (log c w)) as [(Hi & Hh & Hb) Hc]. cbn in *.
    split; [repeat split; assumption|].
    rewrite Hc. cbn. rewrite <- app_assoc. reflexivity.
Qed.

(** X21. Only a POST to [/api/oekaki/post] can write: for any other
    method or path, [fetch] leaves the tables and the bucket as they
    were, and every call it makes is a SELECT or a [BUCKET.get]; a
    request to that path with a method other than POST and OPTIONS is
    answered 405 without any call. *)
Theorem fetch_writes_only_on_post incoming env w :
  method (request incoming) <> "POST"%string
  \/ pathname incoming <> "/api/oekaki/post"%string ->
  same_stores w (snd (fetch incoming env w))
  /\ (exists made,
        calls (snd (fetch incoming env w)) = calls w ++ made
        /\ Forall is_read made)
  /\ (pathname incoming = "/api/oekaki/post"%string ->
      method (request incoming) <> "OPTIONS"%string ->
      fetch incoming env w = (Returned (reply_of method_not_allowed), w)).
Proof.
  intros Hother.
  assert (forall w0 : World,
             same_stores w0 w0
             /\ exists made, calls w0 = calls w0 ++ made /\ Forall is_read made)
    as Hsame.
  { intros w0. split; [repeat split|]. exists [].
    split; [symmetry; apply app_nil_r|constructor]. }
  assert (forall (A : Type) (made : list Call) (f : World -> Completion A),
             Forall is_read made ->
             same_stores w (snd (reading (fun _ => made) f w))
             /\ exists made',
                 calls (snd (reading (fun _ => made) f w)) = calls w ++ made'
                 /\ Forall is_read made') as Hread.
  { intros A made f Hmade. unfold reading. cbn.
    destruct (reading_stores made w) as [Hs Hc]. split; [exact Hs|].
    exists made. split; [exact Hc|exact Hmade]. }
  unfold fetch.
  case_bool_decide as Hopt.
  { destruct (Hsame w) as [Hs Hc]. split; [exact Hs|]. split; [exact Hc|].
    intros _ Hne. contradiction. }
  case_bool_decide as H1.
  { destruct (Hread _ handleImages_calls (handleImages (select_error env)))
      as [Hs Hc]; [repeat constructor|].
    split; [exact Hs|]. split; [exact Hc|]. intros Hp. congruence. }
  case_bool_decide as H2.
  { destruct (Hread _ (handleHistories_calls incoming)
                (handleHistories incoming (select_error env))) as [Hs Hc].
    { unfold handleHistories_calls.
      destruct (search_image_id incoming); repeat constructor. }
    split; [exact Hs|]. split; [exact Hc|]. intros Hp. congruence. }
  case_bool_decide as H3.
  { destruct Hother as [Hm|Hp]; [|contradiction].
    assert (validate (request incoming) = Returned (inl method_not_allowed)) as Hv.
    { unfold validate. rewrite bool_decide_eq_false_2 by exact Hm. reflexivity. }
    unfold mbind, Handler_bind.
    rewrite (handlePost_rejected _ _ env w Hv).
    destruct (Hsame w) as [Hs Hc]. split; [exact Hs|]. split; [exact Hc|].
    intros _ _. reflexivity. }
  case_bool_decide as H4.
  { destruct (Hread _ (handleImage_calls incoming (select_error env) w)
                (handleImage incoming (select_error env))) as [Hs Hc].
    { unfold handleImage_calls.
      destruct (search_image_id incoming); [|constructor].
      destruct (first_image _ _ _); repeat constructor. }
    unfold reading in *. cbn in *.
    split; [exact Hs|]. split; [exact Hc|]. intros Hp. contradiction. }
  destruct (Hsame w) as [Hs Hc]. split; [exact Hs|]. split; [exact Hc|].
  intros Hp. contradiction.
Qed.

Lemma fetch_writes_only_on_post_witness :
  same_stores (sample_world 3)
    (snd (fetch {| pathname := "/api/oekaki/image";
                   search_image_id := Some (js "a");
                   request := {| method := "GET"; cf_connecting_ip := None;
                                 body := None |} |}
            cooperative (sample_world 3)))
  /\ fetch {| pathname := "/api/oekaki/post";
              search_image_id := None;
              request := {| method := "GET"; cf_connecting_ip := None;
                            body := None |} |}
        cooperative (sample_world 3)
     = (Returned (reply_of method_not_allowed), sample_world 3).
Proof.
  split.
  - refine (proj1 (fetch_writes_only_on_post
              {| pathname := "/api/oekaki/image";
                 search_image_id := Some (js "a");
                 request := {| method := "GET"; cf_connecting_ip := None;
                               body := None |} |}
              cooperative (sample_world 3) _)).
    left. discriminate.
  - refine (proj2 (proj2 (fetch_writes_only_on_post
              {| pathname := "/api/oekaki/post";
                 search_image_id := None;
                 request := {| method := "GET"; cf_connecting_ip := None;
                               body := None |} |}
              cooperative (sample_world 3) _)) eq_refl _).
    + left. discriminate.
    + discriminate.
Defined.

(** ** Faults and checks of the post handler *)

(** X22. Three situations in which [handlePost] throws a [TypeError]
    without having written any store: the payload field is missing while
    the earlier checks pass (line 137); the request names an id and the
    lookup yields no row (line 185); the image host accepted the upload
    but its answer has no [data] member (line 259). *)
Theorem handlePost_fault_cases request env w :
  (forall json _bs,
      method request = "POST"%string ->
      body request = Some json ->
      PostRequest._bs json = Some _bs ->
      from_option too_long false (PostRequest.description json) = false ->
      PostRequest.payload json = None ->
      handlePost request env w = (Thrown TypeError, w))
  /\ (forall input i,
        validate request = Returned (inr input) ->
        PostRequest.id (checked_json input) = Some i ->
        select_error env = false ->
        find (has_id i) (images w) = None ->
        handlePost request env w = (Thrown TypeError, log (SelectImage i) w))
  /\ (forall input target w1,
        validate request = Returned (inr input) ->
        resolve_target env (PostRequest.id (checked_json input)) w
        = (Returned (inr target), w1) ->
        upload_response env = {| ok := true; data := None |} ->
        handlePost request env w
        = (Thrown TypeError,
           log (ImgurUpload (strip_data_uri (checked_bs input))) w1)
        /\ same_stores w w1).
Proof.
  split; [|split].
  - intros json _bs Hm Hb Hbs Hd Hp.
    rewrite handlePost_unfold. unfold validate.
    rewrite bool_decide_eq_true_2, Hb, Hbs, Hp by exact Hm. cbn.
    rewrite Hd. reflexivity.
  - intros input i Hv Hid Hsel Hfind.
    rewrite handlePost_unfold, Hv, Hid, resolve_target_some, Hsel, Hfind.
    reflexivity.
  - intros input target w1 Hv Hr Hup.
    pose proof (resolve_target_stores env (PostRequest.id (checked_json input)) w)
      as Hs.
    rewrite handlePost_unfold, Hv, Hr. rewrite Hr in Hs. cbn in Hs.
    split; [|exact Hs].
    unfold submit. unfold_handler. rewrite Hup. reflexivity.
Qed.

Lemma handlePost_fault_cases_witness :
  handlePost (sample_submission None)
    (sample_env {| ok := true; data := None |} false PutStored) (sample_world 3)
  = (Thrown TypeError,
     log (ImgurUpload (strip_data_uri sample_bs)) (sample_world 3))
  /\ handlePost (sample_submission (Some (js "zz"))) cooperative (sample_world 3)
     = (Thrown TypeError, log (SelectImage (js "zz")) (sample_world 3))
  /\ handlePost (sample_post (sample_body None None (Some sample_bs)))
       cooperative (sample_world 3)
     = (Thrown TypeError, sample_world 3).
Proof.
  split; [|split].
  - exact (proj1 (proj2 (proj2 (handlePost_fault_cases (sample_submission None)
             (sample_env {| ok := true; data := None |} false PutStored)
             (sample_world 3)))
             (sample_checked None) NewImage (sample_world 3)
             eq_refl eq_refl eq_refl)).
  - exact (proj1 (proj2 (handlePost_fault_cases (sample_submission (Some (js "zz")))
             cooperative (sample_world 3)))
             (sample_checked (Some (js "zz"))) (js "zz")
             eq_refl eq_refl eq_refl eq_refl).
  - exact (proj1 (handlePost_fault_cases
             (sample_post (sample_body None None (Some sample_bs)))
             cooperative (sample_world 3))
             (sample_body None None (Some sample_bs)) sample_bs
             eq_refl eq_refl eq_refl eq_refl eq_refl).
Defined.

(** X23. No collaborator is called for a request that fails a check: if
    the log of outgoing calls grows, the method is POST, the body is an
    object with [_bs] present, a description of at most 20 code units if
    any, a payload that starts with the four magic bytes, and an author
    of at most 20 code units if any. *)
Theorem checked_before_any_call request env w :
  calls (snd (handlePost request env w)) <> calls w ->
  exists json _bs payload,
    method request = "POST"%string
    /\ body request = Some json
    /\ PostRequest._bs json = Some _bs
    /\ (forall d, PostRequest.description json = Some d -> (length d <= 20)%nat)
    /\ PostRequest.payload json = Some payload
    /\ take 4 payload = magic
    /\ (forall a, PostRequest.author json = Some a -> (length a <= 20)%nat).
Proof.
  intros Hcalls. rewrite handlePost_unfold in Hcalls.
  destruct (validate request) as [[r|input]|e] eqn:Hv;
    [contradiction| |contradiction].
  apply validate_accepts in Hv as (Hm & Hb & Hbs & Hd & Hp & Hmagic & Ha & Hlen).
  exists (checked_json input), (checked_bs input), (checked_payload input).
  repeat split; try assumption.
  - intros d Hdesc. rewrite Hdesc in Hd. cbn in Hd.
    unfold too_long in Hd. apply bool_decide_eq_false in Hd. lia.
  - intros a Hauthor. rewrite Ha, Hauthor in Hlen. cbn in Hlen.
    unfold too_long in Hlen. apply bool_decide_eq_false in Hlen. lia.
Qed.

Lemma checked_before_any_call_witness :
  exists json _bs payload,
    method (sample_submission None) = "POST"%string
    /\ body (sample_submission None) = Some json
    /\ PostRequest._bs json = Some _bs
    /\ (forall d, PostRequest.description json = Some d -> (length d <= 20)%nat)
    /\ PostRequest.payload json = Some payload
    /\ take 4 payload = magic
    /\ (forall a, PostRequest.author json = Some a -> (length a <= 20)%nat).
Proof.
  apply (checked_before_any_call (sample_submission None) cooperative empty_world).
  vm_compute. discriminate.
Defined.

(** ** Instances on the sample data *)

Lemma writes_follow_upload_witness :
  same_stores (sample_world 3)
    (snd (handlePost (sample_submission (Some (js "a")))
            (sample_env {| ok := false; data := None |} false PutStored)
            (sample_world 3))).
Proof.
  destruct (writes_follow_upload (sample_submission (Some (js "a")))
              (sample_env {| ok := false; data := None |} false PutStored)
              (sample_world 3)) as [Hsame|[Hok _]].
  - exact Hsame.
  - discriminate Hok.
Defined.

Lemma handlePost_frame_witness :
  filter (fun r => Images.id r <> js "a")
    (images (snd (handlePost (sample_submission (Some (js "a")))
                    (sample_env {| ok := true; data := Some sample_upload |}
                       false PutNull)
                    (sample_world 3))))
  = filter (fun r => Images.id r <> js "a") (images (sample_world 3)).
Proof.
  exact (proj1 (handlePost_frame (sample_submission (Some (js "a")))
                  (sample_env {| ok := true; data := Some sample_upload |}
                     false PutNull)
                  (sample_world 3))).
Defined.

Lemma handleImages_listing_witness :
  exists rows,
    handleImages false (sample_world 3)
    = Returned (answer "images" (JArr (map (fun r => JObj (image_object r)) rows)))
    /\ length rows = (50 `min` length (images (sample_world 3)))%nat.
Proof.
  destruct (handleImages_listing (sample_world 3)) as (rows & Hreply & Hlen & _).
  exists rows. split; [exact Hreply|exact Hlen].
Defined.
